(** * JWE envelopes of go-jose: parsing, serialization, authenticated data

    A shallow embedding of [jwe.go] (package [jose]) and the properties of
    its compact and full-JSON wire forms.

    Go values are embedded as follows.
    - a [string] is a [string]; a [[]byte] is a [slice]: [None] for the nil
      slice, [Some l] for a slice holding the bytes [l];
    - a pointer [*T] is an [option T], [None] for nil;
    - a function returning [(T, error)] returns a [result T]; an index out
      of range is the outcome [Panic]. *)

From Stdlib Require Import NArith Ascii String List Lia.
From Stdlib Require Import Strings.Byte.
From stdpp Require Import base option list gmap strings.
Import ListNotations.

Local Open Scope string_scope.
Local Open Scope list_scope.

(** ** Go slices of bytes *)

Definition slice := option (list byte).

(** The bytes a slice holds; the nil slice holds none. *)
Definition contents (s : slice) : list byte :=
  match s with
  | Some l => l
  | None => []
  end.

(** ** base64url *)

Module Base64.

Definition alphabet : list ascii :=
  list_ascii_of_string
    "ABCDEFGHIJKLMNOPQRSTUVWXYZabcdefghijklmnopqrstuvwxyz0123456789-_".

(** The character of a 6-bit group. *)
Definition enc6 (n : N) : ascii := nth (N.to_nat n) alphabet "A"%char.

Fixpoint index_of (c : ascii) (l : list ascii) (i : N) : option N :=
  match l with
  | [] => None
  | x :: l' => if Ascii.eqb c x then Some i else index_of c l' (N.succ i)
  end.

(** The 6-bit group of a character, [None] outside the alphabet. *)
Definition dec6 (c : ascii) : option N := index_of c alphabet 0%N.

Definition byte_of_N (n : N) : byte :=
  match Byte.of_N n with
  | Some b => b
  | None => x00
  end.

(** Three bytes become four groups; a tail of one byte becomes two groups
    and a tail of two bytes three groups, with no padding. *)
Fixpoint groups_of_bytes (l : list byte) : list N :=
  match l with
  | [] => []
  | [a] =>
      let x := Byte.to_N a in
      [x / 4; x mod 4 * 16]%N
  | [a; b] =>
      let x := Byte.to_N a in
      let y := Byte.to_N b in
      [x / 4; x mod 4 * 16 + y / 16; y mod 16 * 4]%N
  | a :: b :: c :: rest =>
      let x := Byte.to_N a in
      let y := Byte.to_N b in
      let z := Byte.to_N c in
      [x / 4; x mod 4 * 16 + y / 16; y mod 16 * 4 + z / 64; z mod 64]%N
        ++ groups_of_bytes rest
  end.

(** The inverse regrouping; a lone trailing group carries no byte and is
    refused. *)
Fixpoint bytes_of_groups (g : list N) : option (list byte) :=
  match g with
  | [] => Some []
  | [_] => None
  | [p; q] => Some [byte_of_N (p * 4 + q / 16)]
  | [p; q; r] =>
      Some [byte_of_N (p * 4 + q / 16); byte_of_N (q mod 16 * 16 + r / 4)]
  | p :: q :: r :: s :: rest =>
      match bytes_of_groups rest with
      | Some l =>
          Some (byte_of_N (p * 4 + q / 16)
                  :: byte_of_N (q mod 16 * 16 + r / 4)
                  :: byte_of_N (r mod 4 * 64 + s) :: l)
      | None => None
      end
  end%N.

End Base64.

(** Modelled from the spec: the base64url encode primitive of the
    repository's encoding helpers (URL-safe alphabet, "no padding
    characters in base64url"). *)
Definition base64URLEncode (b : list byte) : string :=
  string_of_list_ascii (map Base64.enc6 (Base64.groups_of_bytes b)).

(** Modelled from the spec: the base64url decode primitive of the
    repository's encoding helpers, "with decode failing on invalid alphabet
    or padding". *)
Definition base64URLDecode (s : string) : option (list byte) :=
  match mapM Base64.dec6 (list_ascii_of_string s) with
  | Some g => Base64.bytes_of_groups g
  | None => None
  end.

(** ** Strings *)

(** [strings.Split(s, sep)] for a one-character separator: the pieces
    between the separators, of which there is always at least one. *)
Fixpoint split (sep : ascii) (s : string) : list string :=
  match s with
  | EmptyString => [EmptyString]
  | String c s' =>
      if Ascii.eqb c sep then EmptyString :: split sep s'
      else match split sep s' with
           | p :: ps => String c p :: ps
           | [] => [String c EmptyString]
           end
  end.

Definition is_space (c : ascii) : bool :=
  let n := nat_of_ascii c in
  (n =? 32)%nat || ((9 <=? n)%nat && (n <=? 13)%nat).

(** Modelled from the spec: the whitespace stripper of the repository's
    encoding helpers, "strip all whitespace from the input". *)
Fixpoint stripWhitespace (s : string) : string :=
  match s with
  | EmptyString => EmptyString
  | String c s' =>
      if is_space c then stripWhitespace s' else String c (stripWhitespace s')
  end.

(** The double-quote character, and a string between double quotes. *)
Definition dquote : ascii := ascii_of_nat 34.
Definition quoted (s : string) : string :=
  String dquote (s +:+ String dquote EmptyString).

(** [strings.HasPrefix(s, "{")]. *)
Definition hasPrefixBrace (s : string) : bool := String.prefix "{" s.

(** The holds-everywhere test on the characters of a string. *)
Fixpoint string_forall (p : ascii -> bool) (s : string) : bool :=
  match s with
  | EmptyString => true
  | String c s' => p c && string_forall p s'
  end.

(** The characters of the base64url alphabet. *)
Definition is_base64url (c : ascii) : bool :=
  match Base64.dec6 c with
  | Some _ => true
  | None => false
  end.

(** ** Errors and outcomes *)

(** The error kinds of the package. [ErrNotSupported] is the value returned
    for an envelope that has no compact form. *)
Inductive error : Type :=
| Base64Error
| JSONSyntaxError
| MalformedHeader
| MalformedCompact
| MissingAlgEnc
| ErrNotSupported.

(** What a call comes to: a value, an error, or a run-time panic (an index
    out of range). *)
Inductive result (A : Type) : Type :=
| Ok (a : A)
| Err (e : error)
| Panic.

Arguments Ok {A} a.
Arguments Err {A} e.
Arguments Panic {A}.

#[global] Instance result_bind : MBind result :=
  fun A B (k : A -> result B) (r : result A) =>
    match r with
    | Ok a => k a
    | Err e => Err e
    | Panic => Panic
    end.

(** The [if err != nil { return nil, err }] idiom, the error being of kind
    [e]. *)
Definition orErr {A} (e : error) (o : option A) : result A :=
  match o with
  | Some a => Ok a
  | None => Err e
  end.

(** [xs[0]]. *)
Definition first {A} (xs : list A) : result A :=
  match xs with
  | x :: _ => Ok x
  | [] => Panic
  end.

(** ** JSON values and headers *)

#[warnings="-register-all"] Inductive json : Type :=
| JNull
| JString (s : string)
| JArray (items : list json)
| JObject (fields : list (string * json)).

(** Modelled from the spec: the header value type, declared outside
    [jwe.go]: "an opaque ordered mapping from string keys to values,
    exposing at least the two reserved keys alg and enc". A key has one
    entry; the order of the entries plays no part in [jwe.go]. *)
Definition Header : Type := gmap string json.

(** The text of an entry, empty when there is no such text. *)
Definition text_at (key : string) (h : Header) : string :=
  match h !! key with
  | Some (JString s) => s
  | _ => EmptyString
  end.

(** Modelled from the spec: the fields [Alg] and [Enc] of the header
    type, the text of "the two reserved keys alg and enc"; the text is
    empty when the entry is absent. *)
Definition Alg (h : Header) : string := text_at "alg" h.
Definition Enc (h : Header) : string := text_at "enc" h.

(** Modelled from the spec: the method [merge] of the header type:
    "applies each present mapping's entries over [the] result"; "a later
    mapping's entry for a given key overwrites an earlier one. Absent
    mappings are skipped." *)
Definition merge (dst : Header) (src : option Header) : Header :=
  match src with
  | Some s => s ∪ dst
  | None => dst
  end.

(** ** Buffers *)

(** Modelled from the spec: [encodedBuffer], declared outside [jwe.go]:
    the buffer of bytes that stands in JSON as base64url text ("each
    base64url-encoded"). *)
Record encodedBuffer : Type := { buf : slice }.

(** Modelled from the spec: [newBuffer], the constructor of the buffer;
    there is no buffer for a nil slice, so that an absent byte sequence is
    an absent field ("omitting any field that is absent"). *)
Definition newBuffer (d : slice) : option encodedBuffer :=
  match d with
  | Some _ => Some {| buf := d |}
  | None => None
  end.

(** Modelled from the spec: the method [bytes], the bytes of the buffer;
    [jwe.go] calls it on the buffers of optional fields, and the nil
    pointer has no bytes ("both optional"). *)
Definition bytes (b : option encodedBuffer) : slice :=
  match b with
  | Some e => buf e
  | None => None
  end.

(** Modelled from the spec: the method [base64], "the base64url text" of
    the bytes of the buffer. *)
Definition base64 (b : option encodedBuffer) : string :=
  base64URLEncode (contents (bytes b)).

(** [len(s)] of a slice. *)
Definition len (s : slice) : nat := length (contents s).

(** ** The structs of [jwe.go] *)

Record rawRecipientInfo : Type := {
  rri_Header : option Header;
  rri_EncryptedKey : string
}.

Record rawJsonWebEncryption : Type := {
  raw_Protected : option encodedBuffer;
  raw_Unprotected : option Header;
  raw_Header : option Header;
  raw_Recipients : list rawRecipientInfo;
  raw_Aad : option encodedBuffer;
  raw_EncryptedKey : option encodedBuffer;
  raw_Iv : option encodedBuffer;
  raw_Ciphertext : option encodedBuffer;
  raw_Tag : option encodedBuffer
}.

Record recipientInfo : Type := {
  header : option Header;
  encryptedKey : slice
}.

Record JsonWebEncryption : Type := {
  protected : option Header;
  unprotected : option Header;
  recipients : list recipientInfo;
  aad : slice;
  iv : slice;
  ciphertext : slice;
  tag : slice;
  original : option rawJsonWebEncryption
}.

(** ** The JSON primitives

    The text encoder and decoders of the JSON library, consumed as an
    interface: [json_marshal] writes a value out, [json_unmarshal_Header]
    reads header text ([Some None] for the text [null]), and
    [json_unmarshal_raw] reads the text of a full-JSON message into the raw
    struct. *)
Class JSONCodec : Type := {
  json_marshal : json -> list byte;
  json_unmarshal_Header : list byte -> option (option Header);
  json_unmarshal_raw : list byte -> option rawJsonWebEncryption
}.

(** The JSON value of a Go value, as [json.Marshal] derives it from the
    type and its field tags. *)
Class ToJSON (A : Type) : Type := to_json : A -> json.

(** Modelled from the spec: the JSON form of a header, the object of its
    entries. *)
#[global] Instance Header_to_json : ToJSON Header :=
  fun h => JObject (map_to_list h).

(** A nil pointer is written as [null]. *)
#[global] Instance pointer_to_json {A} `{ToJSON A} : ToJSON (option A) :=
  fun p =>
    match p with
    | Some a => to_json a
    | None => JNull
    end.

(** Modelled from the spec: the JSON form of an [encodedBuffer], its
    base64url text. *)
#[global] Instance encodedBuffer_to_json : ToJSON encodedBuffer :=
  fun b => JString (base64 (Some b)).

(** A pointer field tagged [omitempty]: left out when nil. *)
Definition omitempty_ptr {A} `{ToJSON A} (name : string) (p : option A)
  : list (string * json) :=
  match p with
  | Some a => [(name, to_json a)]
  | None => []
  end.

(** A string field tagged [omitempty]: left out when empty. *)
Definition omitempty_string (name : string) (s : string)
  : list (string * json) :=
  match s with
  | EmptyString => []
  | _ => [(name, JString s)]
  end.

(** A slice field tagged [omitempty]: left out when of length 0. *)
Definition omitempty_slice {A} `{ToJSON A} (name : string) (l : list A)
  : list (string * json) :=
  match l with
  | [] => []
  | _ => [(name, JArray (map to_json l))]
  end.

#[global] Instance rawRecipientInfo_to_json : ToJSON rawRecipientInfo :=
  fun r =>
    JObject (omitempty_ptr "header" (rri_Header r)
             ++ omitempty_string "encrypted_key" (rri_EncryptedKey r)).

#[global] Instance rawJsonWebEncryption_to_json
  : ToJSON rawJsonWebEncryption :=
  fun raw =>
    JObject (omitempty_ptr "protected" (raw_Protected raw)
             ++ omitempty_ptr "unprotected" (raw_Unprotected raw)
             ++ omitempty_ptr "header" (raw_Header raw)
             ++ omitempty_slice "recipients" (raw_Recipients raw)
             ++ omitempty_ptr "aad" (raw_Aad raw)
             ++ omitempty_ptr "encrypted_key" (raw_EncryptedKey raw)
             ++ omitempty_ptr "iv" (raw_Iv raw)
             ++ omitempty_ptr "ciphertext" (raw_Ciphertext raw)
             ++ omitempty_ptr "tag" (raw_Tag raw)).

(** The field of a JSON object, if the value is an object that has it. *)
Fixpoint assoc (key : string) (fields : list (string * json)) : option json :=
  match fields with
  | [] => None
  | (k, v) :: rest => if String.eqb k key then Some v else assoc key rest
  end.

Definition json_field (key : string) (j : json) : option json :=
  match j with
  | JObject fields => assoc key fields
  | _ => None
  end.

(** ** The functions of [jwe.go] *)

Section Jwe.

Context `{JSONCodec}.

(** Modelled from the spec: [mustSerializeJSON], the serializer of the
    repository's encoding helpers, which hands the value to the JSON
    encoder ("JSON encode ... of arbitrary ordered mappings and of the
    defined struct shapes") and returns its text. *)
Definition mustSerializeJSON {A} `{ToJSON A} (value : A) : list byte :=
  json_marshal (to_json value).

(** [GetAuthData]: a copy of the authenticated data, nil if there is
    none. *)
Definition GetAuthData (obj : JsonWebEncryption) : slice :=
  match aad obj with
  | Some a => Some a
  | None => None
  end.

(** [mergedHeaders]: the protected header, then the unprotected one, then
    the header of the recipient if one is given, merged into an empty
    header. *)
Definition mergedHeaders (obj : JsonWebEncryption)
    (recipient : option recipientInfo) : Header :=
  let out : Header := ∅ in
  let out := merge out (protected obj) in
  let out := merge out (unprotected obj) in
  match recipient with
  | Some r => merge out (header r)
  | None => out
  end.

(** [computeAuthData]. *)
Definition computeAuthData (obj : JsonWebEncryption) : list byte :=
  let protected_ :=
    match original obj with
    | Some orig => base64 (raw_Protected orig)
    | None => base64URLEncode (mustSerializeJSON (protected obj))
    end in
  let output := list_byte_of_string protected_ in
  match aad obj with
  | Some a =>
      (output ++ [byte_of_ascii "."])
        ++ list_byte_of_string (base64URLEncode a)
  | None => output
  end.

(** The bytes of the protected header that the authenticated data are
    computed from, in the words of the specification: the bytes kept
    from parsing when there are any, the serialization of the protected
    header otherwise. *)
Definition protectedBytes (obj : JsonWebEncryption) : list byte :=
  match original obj with
  | Some orig => contents (bytes (raw_Protected orig))
  | None => mustSerializeJSON (protected obj)
  end.

(** The test [headers.Alg == "" || headers.Enc == ""]. *)
Definition missingAlgEnc (headers : Header) : bool :=
  String.eqb (Alg headers) "" || String.eqb (Enc headers) "".

(** The first loop of [parseEncryptedFull]: one recipient per entry of
    the array, the key decoded; the first key that does not decode ends
    the parse. *)
Fixpoint decodeRecipients (rs : list rawRecipientInfo)
  : result (list recipientInfo) :=
  match rs with
  | [] => Ok []
  | r :: rest =>
      key ← orErr Base64Error (base64URLDecode (rri_EncryptedKey r));
      tail ← decodeRecipients rest;
      Ok ({| header := rri_Header r; encryptedKey := Some key |} :: tail)
  end.

(** The second loop of [parseEncryptedFull]: the first recipient whose
    merged header lacks [alg] or [enc] ends the parse. *)
Fixpoint checkRecipients (obj : JsonWebEncryption)
    (rs : list recipientInfo) : result unit :=
  match rs with
  | [] => Ok tt
  | r :: rest =>
      if missingAlgEnc (mergedHeaders obj (Some r)) then Err MissingAlgEnc
      else checkRecipients obj rest
  end.

(** The protected header of a raw struct: decoded when the buffer is
    there and is not empty, nil otherwise. *)
Definition decodeProtected (parsed : rawJsonWebEncryption)
  : result (option Header) :=
  if bool_decide (raw_Protected parsed <> None)
     && (0 <? len (bytes (raw_Protected parsed)))%nat
  then orErr MalformedHeader
         (json_unmarshal_Header (contents (bytes (raw_Protected parsed))))
  else Ok None.

(** The recipients of a raw struct: the flattened fields when the array
    is of length 0, the entries of the array otherwise. *)
Definition buildRecipients (parsed : rawJsonWebEncryption)
  : result (list recipientInfo) :=
  match raw_Recipients parsed with
  | [] =>
      Ok [ {| header := raw_Header parsed;
              encryptedKey := bytes (raw_EncryptedKey parsed) |} ]
  | _ => decodeRecipients (raw_Recipients parsed)
  end.

(** [parseEncryptedFull], from the decoded raw struct on. *)
Definition fromRaw (parsed : rawJsonWebEncryption)
  : result JsonWebEncryption :=
  prot ← decodeProtected parsed;
  rs ← buildRecipients parsed;
  let obj :=
    {| protected := prot;
       unprotected := raw_Unprotected parsed;
       recipients := rs;
       aad := None; iv := None; ciphertext := None; tag := None;
       original := Some parsed |} in
  _ ← checkRecipients obj rs;
  Ok {| protected := prot;
        unprotected := raw_Unprotected parsed;
        recipients := rs;
        aad := bytes (raw_Aad parsed);
        iv := bytes (raw_Iv parsed);
        ciphertext := bytes (raw_Ciphertext parsed);
        tag := bytes (raw_Tag parsed);
        original := Some parsed |}.

(** [parseEncryptedFull]. *)
Definition parseEncryptedFull (input : string) : result JsonWebEncryption :=
  parsed ← orErr JSONSyntaxError
             (json_unmarshal_raw (list_byte_of_string input));
  fromRaw parsed.

(** [parseEncryptedCompact]. *)
Definition parseEncryptedCompact (input : string)
  : result JsonWebEncryption :=
  let parts := split "." input in
  if negb (length parts =? 5)%nat then Err MalformedCompact
  else
    let part i := nth i parts EmptyString in
    rawProtected ← orErr Base64Error (base64URLDecode (part 0%nat));
    decoded ← orErr MalformedHeader (json_unmarshal_Header rawProtected);
    let protected_ : Header := default ∅ decoded in
    if missingAlgEnc protected_ then Err MissingAlgEnc
    else
      encryptedKey_ ← orErr Base64Error (base64URLDecode (part 1%nat));
      iv_ ← orErr Base64Error (base64URLDecode (part 2%nat));
      ciphertext_ ← orErr Base64Error (base64URLDecode (part 3%nat));
      tag_ ← orErr Base64Error (base64URLDecode (part 4%nat));
      Ok {| protected := Some protected_;
            unprotected := None;
            recipients :=
              [ {| header := None; encryptedKey := Some encryptedKey_ |} ];
            aad := None;
            iv := Some iv_;
            ciphertext := Some ciphertext_;
            tag := Some tag_;
            original :=
              Some {| raw_Protected := newBuffer (Some rawProtected);
                      raw_Unprotected := None;
                      raw_Header := None;
                      raw_Recipients := [];
                      raw_Aad := None;
                      raw_EncryptedKey := newBuffer (Some encryptedKey_);
                      raw_Iv := newBuffer (Some iv_);
                      raw_Ciphertext := newBuffer (Some ciphertext_);
                      raw_Tag := newBuffer (Some tag_) |} |}.

(** [ParseEncrypted]. *)
Definition ParseEncrypted (input : string) : result JsonWebEncryption :=
  let input := stripWhitespace input in
  if hasPrefixBrace input then parseEncryptedFull input
  else parseEncryptedCompact input.

(** The five segments of the compact form, joined by dots. *)
Definition joinCompact (p k i c t : string) : string :=
  p +:+ "." +:+ k +:+ "." +:+ i +:+ "." +:+ c +:+ "." +:+ t.

(** [CompactSerialize]. The three tests of the guard are made in turn,
    and [recipients[0]] is read only if the first two fail. *)
Definition CompactSerialize (obj : JsonWebEncryption) : result string :=
  if (1 <? length (recipients obj))%nat then Err ErrNotSupported
  else if bool_decide (unprotected obj <> None) then Err ErrNotSupported
  else
    r0 ← first (recipients obj);
    if bool_decide (header r0 <> None) then Err ErrNotSupported
    else
      let serializedProtected := mustSerializeJSON (protected obj) in
      Ok (joinCompact
            (base64URLEncode serializedProtected)
            (base64URLEncode (contents (encryptedKey r0)))
            (base64URLEncode (contents (iv obj)))
            (base64URLEncode (contents (ciphertext obj)))
            (base64URLEncode (contents (tag obj)))).

(** The raw struct that [FullSerialize] hands to the JSON encoder. *)
Definition fullRaw (obj : JsonWebEncryption) : result rawJsonWebEncryption :=
  r0 ← first (recipients obj);
  let raw :=
    {| raw_Protected := None;
       raw_Unprotected := unprotected obj;
       raw_Header := None;
       raw_Recipients := [];
       raw_Aad := newBuffer (aad obj);
       raw_EncryptedKey := newBuffer (encryptedKey r0);
       raw_Iv := newBuffer (iv obj);
       raw_Ciphertext := newBuffer (ciphertext obj);
       raw_Tag := newBuffer (tag obj) |} in
  let raw :=
    if (1 <? length (recipients obj))%nat then
      {| raw_Protected := raw_Protected raw;
         raw_Unprotected := raw_Unprotected raw;
         raw_Header := raw_Header raw;
         raw_Recipients :=
           raw_Recipients raw
             ++ map (fun recipient =>
                       {| rri_Header := header recipient;
                          rri_EncryptedKey :=
                            base64URLEncode
                              (contents (encryptedKey recipient)) |})
                  (recipients obj);
         raw_Aad := raw_Aad raw;
         raw_EncryptedKey := raw_EncryptedKey raw;
         raw_Iv := raw_Iv raw;
         raw_Ciphertext := raw_Ciphertext raw;
         raw_Tag := raw_Tag raw |}
    else
      {| raw_Protected := raw_Protected raw;
         raw_Unprotected := raw_Unprotected raw;
         raw_Header := header r0;
         raw_Recipients := raw_Recipients raw;
         raw_Aad := raw_Aad raw;
         raw_EncryptedKey := newBuffer (encryptedKey r0);
         raw_Iv := raw_Iv raw;
         raw_Ciphertext := raw_Ciphertext raw;
         raw_Tag := raw_Tag raw |} in
  Ok {| raw_Protected :=
          newBuffer (Some (mustSerializeJSON (protected obj)));
        raw_Unprotected := raw_Unprotected raw;
        raw_Header := raw_Header raw;
        raw_Recipients := raw_Recipients raw;
        raw_Aad := raw_Aad raw;
        raw_EncryptedKey := raw_EncryptedKey raw;
        raw_Iv := raw_Iv raw;
        raw_Ciphertext := raw_Ciphertext raw;
        raw_Tag := raw_Tag raw |}.

(** [FullSerialize]. *)
Definition FullSerialize (obj : JsonWebEncryption) : result string :=
  raw ← fullRaw obj;
  Ok (string_of_list_byte (mustSerializeJSON raw)).

End Jwe.

(** ** A reference JSON codec

    A small encoder and decoder for the JSON texts of this format: objects,
    arrays, strings without escapes and [null]. It instantiates
    [JSONCodec], so that the functions above run on concrete messages. *)

Module RefJSON.

Fixpoint print (j : json) : string :=
  match j with
  | JNull => "null"
  | JString s => quoted s
  | JArray items =>
      "[" +:+ (fix go (l : list json) : string :=
                match l with
                | [] => EmptyString
                | x :: l' =>
                    match l' with
                    | [] => print x
                    | _ => print x +:+ "," +:+ go l'
                    end
                end) items +:+ "]"
  | JObject fields =>
      "{" +:+ (fix go (l : list (string * json)) : string :=
                match l with
                | [] => EmptyString
                | (k, v) :: l' =>
                    match l' with
                    | [] => quoted k +:+ ":" +:+ print v
                    | _ => quoted k +:+ ":" +:+ print v +:+ "," +:+ go l'
                    end
                end) fields +:+ "}"
  end.

(** The text up to the closing quote, and what follows it. *)
Fixpoint read_string (s : string) : option (string * string) :=
  match s with
  | EmptyString => None
  | String c r =>
      if Ascii.eqb c dquote then Some (EmptyString, r)
      else if Ascii.eqb c "\" then None
      else match read_string r with
           | Some (t, r') => Some (String c t, r')
           | None => None
           end
  end.

Fixpoint skip_space (s : string) : string :=
  match s with
  | EmptyString => EmptyString
  | String c r => if is_space c then skip_space r else s
  end.

(** The next character that is not white space, and what follows it. *)
Definition next (s : string) : option (ascii * string) :=
  match skip_space s with
  | EmptyString => None
  | String c r => Some (c, r)
  end.

Fixpoint parse_value (fuel : nat) (s : string) : option (json * string) :=
  match fuel with
  | O => None
  | S fuel =>
      '(c, r) ← next s;
      if Ascii.eqb c dquote then
        '(t, r') ← read_string r; Some (JString t, r')
      else if Ascii.eqb c "{" then
        '(c', r') ← next r;
        if Ascii.eqb c' "}" then Some (JObject [], r')
        else '(fs, r'') ← parse_members fuel r; Some (JObject fs, r'')
      else if Ascii.eqb c "[" then
        '(c', r') ← next r;
        if Ascii.eqb c' "]" then Some (JArray [], r')
        else '(xs, r'') ← parse_items fuel r; Some (JArray xs, r'')
      else if String.prefix "null" (String c r) then
        Some (JNull, String.substring 3 (String.length r - 3) r)
      else None
  end
with parse_members (fuel : nat) (s : string)
  : option (list (string * json) * string) :=
  match fuel with
  | O => None
  | S fuel =>
      '(c, r) ← next s;
      if Ascii.eqb c dquote then
        '(k, r1) ← read_string r;
        '(c2, r2) ← next r1;
        if Ascii.eqb c2 ":" then
          '(v, r3) ← parse_value fuel r2;
          '(c4, r4) ← next r3;
          if Ascii.eqb c4 "," then
            '(fs, r5) ← parse_members fuel r4; Some ((k, v) :: fs, r5)
          else if Ascii.eqb c4 "}" then Some ([(k, v)], r4)
          else None
        else None
      else None
  end
with parse_items (fuel : nat) (s : string)
  : option (list json * string) :=
  match fuel with
  | O => None
  | S fuel =>
      '(v, r1) ← parse_value fuel s;
      '(c2, r2) ← next r1;
      if Ascii.eqb c2 "," then
        '(xs, r3) ← parse_items fuel r2; Some (v :: xs, r3)
      else if Ascii.eqb c2 "]" then Some ([v], r2)
      else None
  end.

(** A whole text as one JSON value. Every call consumes a character, so
    the length of the text bounds the depth of the recursion. *)
Definition parse (b : list byte) : option json :=
  let s := string_of_list_byte b in
  '(j, r) ← parse_value (S (String.length s)) s;
  match skip_space r with
  | EmptyString => Some j
  | _ => None
  end.

(** A header from its JSON value: an object, the last of two entries with
    one key standing; [null] gives no header. *)
Definition header_of_json (j : json) : option (option Header) :=
  match j with
  | JNull => Some None
  | JObject fields => Some (Some (list_to_map (reverse fields)))
  | _ => None
  end.

(** A buffer from its JSON value, base64url text. *)
Definition buffer_of_json (j : json) : option (option encodedBuffer) :=
  match j with
  | JNull => Some None
  | JString EmptyString => Some (Some {| buf := None |})
  | JString s =>
      l ← base64URLDecode s; Some (Some {| buf := Some l |})
  | _ => None
  end.

Definition text_of_json (j : json) : option string :=
  match j with
  | JNull => Some EmptyString
  | JString s => Some s
  | _ => None
  end.

(** A field that may be missing. *)
Definition field {A} (read : json -> option A) (missing : A) (key : string)
    (fields : list (string * json)) : option A :=
  match assoc key fields with
  | Some j => read j
  | None => Some missing
  end.

Definition recipient_of_json (j : json) : option rawRecipientInfo :=
  match j with
  | JObject fs =>
      h ← field header_of_json None "header" fs;
      k ← field text_of_json EmptyString "encrypted_key" fs;
      Some {| rri_Header := h; rri_EncryptedKey := k |}
  | _ => None
  end.

Definition recipients_of_json (j : json) : option (list rawRecipientInfo) :=
  match j with
  | JNull => Some []
  | JArray items => mapM recipient_of_json items
  | _ => None
  end.

Definition raw_of_json (j : json) : option rawJsonWebEncryption :=
  match j with
  | JObject fs =>
      p ← field buffer_of_json None "protected" fs;
      u ← field header_of_json None "unprotected" fs;
      h ← field header_of_json None "header" fs;
      rs ← field recipients_of_json [] "recipients" fs;
      a ← field buffer_of_json None "aad" fs;
      k ← field buffer_of_json None "encrypted_key" fs;
      i ← field buffer_of_json None "iv" fs;
      c ← field buffer_of_json None "ciphertext" fs;
      t ← field buffer_of_json None "tag" fs;
      Some {| raw_Protected := p; raw_Unprotected := u; raw_Header := h;
              raw_Recipients := rs; raw_Aad := a; raw_EncryptedKey := k;
              raw_Iv := i; raw_Ciphertext := c; raw_Tag := t |}
  | _ => None
  end.

Definition codec : JSONCodec :=
  {| json_marshal := fun j => list_byte_of_string (print j);
     json_unmarshal_Header := fun b => j ← parse b; header_of_json j;
     json_unmarshal_raw := fun b => j ← parse b; raw_of_json j |}.

End RefJSON.

(** ** The notions of the specification *)

(** The entry of a header that may be absent. *)
Definition entry (h : option Header) (key : string) : option json :=
  match h with
  | Some m => m !! key
  | None => None
  end.

(** The shapes that have no compact form: more than one recipient, an
    unprotected header, or a header on the sole recipient. *)
Definition unsupportedShape (obj : JsonWebEncryption) : Prop :=
  (1 < length (recipients obj))%nat
  \/ unprotected obj <> None
  \/ exists r, recipients obj = [r] /\ header r <> None.

(** The invariant of the data model: there is a recipient, and the merged
    header of every recipient has a non-empty [alg] and [enc]. *)
Definition wellFormed (obj : JsonWebEncryption) : Prop :=
  recipients obj <> []
  /\ Forall (fun r => missingAlgEnc (mergedHeaders obj (Some r)) = false)
       (recipients obj).

(** The entry of the [recipients] array for a recipient: its header, if
    any, and the base64url text of its key. *)
Definition recipientEntry (r : recipientInfo) : json :=
  JObject (omitempty_ptr "header" (header r)
           ++ omitempty_string "encrypted_key"
                (base64URLEncode (contents (encryptedKey r)))).

(** What follows the protected header in the authenticated data: a dot
    and the base64url text of [aad] when there is one, nothing otherwise. *)
Definition aadSuffix (a : slice) : list byte :=
  match a with
  | Some l => byte_of_ascii "." :: list_byte_of_string (base64URLEncode l)
  | None => []
  end.

(** The merged header of a recipient, from the two headers of the
    message. *)
Definition mergedOf (prot unprot : option Header) (r : recipientInfo)
  : Header :=
  merge (merge (merge ∅ prot) unprot) (header r).

Definition not_dot (c : ascii) : bool := negb (Ascii.eqb c ".").

(** The JSON text of a byte field: none for a nil slice, the base64url
    text of the bytes otherwise. *)
Definition buffer_text (d : slice) : option json :=
  option_map (fun l => JString (base64URLEncode l)) d.

(** The encrypted key of the first recipient, nil if there is none. *)
Definition encryptedKey_of (obj : JsonWebEncryption) : slice :=
  match recipients obj with
  | r :: _ => encryptedKey r
  | [] => None
  end.

(** The characters of a compact text. *)
Definition compact_char (c : ascii) : bool :=
  is_base64url c || Ascii.eqb c ".".

(** ** Sample messages *)

Module Sample.

Definition dir_header : Header :=
  <["alg" := JString "dir"]> (<["enc" := JString "A128GCM"]> ∅).

Definition text (s : string) : slice := Some (list_byte_of_string s).

(** A direct-key envelope, built by hand: one recipient, no key. *)
Definition single : JsonWebEncryption :=
  {| protected := Some dir_header;
     unprotected := None;
     recipients := [ {| header := None; encryptedKey := None |} ];
     aad := None;
     iv := text "abc";
     ciphertext := text "def";
     tag := text "ghi";
     original := None |}.

(** An envelope for two recipients, built by hand. *)
Definition pair : JsonWebEncryption :=
  {| protected := Some dir_header;
     unprotected := None;
     recipients := [ {| header := None; encryptedKey := text "k1" |};
                     {| header := None; encryptedKey := text "k2" |} ];
     aad := None;
     iv := text "abc";
     ciphertext := text "def";
     tag := text "ghi";
     original := None |}.

(** The compact text of a direct-key message; its first segment is the
    base64url text of an object with the entries alg: dir and
    enc: A128GCM, written without white space. *)
Definition compact_dir : string :=
  "eyJhbGciOiJkaXIiLCJlbmMiOiJBMTI4R0NNIn0..YWJj.ZGVm.Z2hp".

(** The same message, the header written with a space after each colon
    and comma. *)
Definition compact_spaced : string :=
  "eyJhbGciOiAiZGlyIiwgImVuYyI6ICJBMTI4R0NNIn0..YWJj.ZGVm.Z2hp".

(** The header of [compact_dir], as text. *)
Definition plain_header : string :=
  "{" +:+ quoted "alg" +:+ ":" +:+ quoted "dir" +:+ ","
      +:+ quoted "enc" +:+ ":" +:+ quoted "A128GCM" +:+ "}".

Definition spaced_header : string :=
  "{" +:+ quoted "alg" +:+ ": " +:+ quoted "dir" +:+ ", "
      +:+ quoted "enc" +:+ ": " +:+ quoted "A128GCM" +:+ "}".

(** The envelope that [compact_spaced] parses to. *)
Definition parsed_spaced : JsonWebEncryption :=
  {| protected := Some dir_header;
     unprotected := None;
     recipients := [ {| header := None; encryptedKey := Some [] |} ];
     aad := None;
     iv := text "abc";
     ciphertext := text "def";
     tag := text "ghi";
     original :=
       Some {| raw_Protected := newBuffer (text spaced_header);
               raw_Unprotected := None;
               raw_Header := None;
               raw_Recipients := [];
               raw_Aad := None;
               raw_EncryptedKey := newBuffer (Some []);
               raw_Iv := newBuffer (text "abc");
               raw_Ciphertext := newBuffer (text "def");
               raw_Tag := newBuffer (text "ghi") |} |}.



(** A flattened full-JSON message with neither header nor
    encrypted_key. *)
Definition full_flat : string :=
  RefJSON.print
    (JObject [ ("protected", JString "eyJhbGciOiJkaXIiLCJlbmMiOiJBMTI4R0NNIn0");
               ("iv", JString "YWJj");
               ("ciphertext", JString "ZGVm");
               ("tag", JString "Z2hp") ]).

(** A full-JSON message for two recipients. *)
Definition full_pair : string :=
  RefJSON.print
    (JObject [ ("protected", JString "eyJhbGciOiJkaXIiLCJlbmMiOiJBMTI4R0NNIn0");
               ("recipients",
                JArray [ JObject [ ("encrypted_key", JString "azE") ];
                         JObject [ ("header",
                                    JObject [ ("kid", JString "two") ]);
                                   ("encrypted_key", JString "azI") ] ]);
               ("iv", JString "YWJj");
               ("ciphertext", JString "ZGVm");
               ("tag", JString "Z2hp") ]).

(** A flattened full-JSON message whose protected header has alg but no
    enc, and whose recipient header has alg. *)
Definition full_no_enc : string :=
  RefJSON.print
    (JObject [ ("protected", JString "eyJhbGciOiJkaXIifQ");
               ("header", JObject [ ("alg", JString "dir") ]);
               ("iv", JString "YWJj");
               ("ciphertext", JString "ZGVm");
               ("tag", JString "Z2hp") ]).

End Sample.

(** ** More sample messages *)

Module Sample2.

(** [Sample.single] with authenticated data of the caller. *)
Definition with_aad : JsonWebEncryption :=
  {| protected := Some Sample.dir_header;
     unprotected := None;
     recipients := [ {| header := None; encryptedKey := None |} ];
     aad := Sample.text "extra";
     iv := Sample.text "abc";
     ciphertext := Sample.text "def";
     tag := Sample.text "ghi";
     original := None |}.

(** An envelope with no recipient. *)
Definition no_recipient : JsonWebEncryption :=
  {| protected := Some Sample.dir_header;
     unprotected := None;
     recipients := [];
     aad := None;
     iv := Sample.text "abc";
     ciphertext := Sample.text "def";
     tag := Sample.text "ghi";
     original := None |}.

(** [Sample.compact_dir] with the last character of the first segment
    changed: the two low bits of that character carry no byte, and the
    segment decodes to the same header. *)
Definition compact_loose : string :=
  "eyJhbGciOiJkaXIiLCJlbmMiOiJBMTI4R0NNIn1..YWJj.ZGVm.Z2hp".


(** A full-JSON message for two recipients, the key of the second of
    which is not base64url text; there is no [enc] anywhere. *)
Definition full_bad_key : string :=
  RefJSON.print
    (JObject [ ("protected", JString "eyJhbGciOiJkaXIifQ");
               ("recipients",
                JArray [ JObject [ ("encrypted_key", JString "azE") ];
                         JObject [ ("encrypted_key", JString "!!") ] ]);
               ("ciphertext", JString "ZGVm") ]).

(** A full-JSON message whose protected header is not JSON text (the
    bytes abc), and whose recipient key is not base64url text. *)
Definition full_bad_header : string :=
  RefJSON.print
    (JObject [ ("protected", JString "YWJj");
               ("recipients",
                JArray [ JObject [ ("encrypted_key", JString "!!") ] ]);
               ("ciphertext", JString "ZGVm") ]).

(** A flattened full-JSON message with no [protected] field; the
    unprotected header has [alg] and [enc]. *)
Definition full_unprotected : string :=
  RefJSON.print
    (JObject [ ("unprotected",
                JObject [ ("alg", JString "dir");
                          ("enc", JString "A128GCM") ]);
               ("encrypted_key", JString "azE");
               ("iv", JString "YWJj");
               ("ciphertext", JString "ZGVm");
               ("tag", JString "Z2hp") ]).

End Sample2.

(** * Properties *)

Arguments Base64.dec6 : simpl never.
Arguments Base64.enc6 : simpl never.
Arguments base64URLEncode : simpl never.
Arguments base64URLDecode : simpl never.
Arguments is_base64url : simpl never.
Arguments is_space : simpl never.

(** ** base64url *)

Module Base64Facts.
Import Base64.

Local Open Scope N_scope.

Ltac div_fact a b :=
  let q := fresh "q" in
  let r := fresh "r" in
  let Hq := fresh "Hq" in
  let Hr := fresh "Hr" in
  pose proof (N.div_mod' a b) as Hq;
  pose proof (N.mod_upper_bound a b ltac:(discriminate)) as Hr;
  set (q := a / b) in *; set (r := a mod b) in *;
  clearbody q r.

(** Names every quotient and remainder by a constant and records its
    defining equation and bound, leaving linear arithmetic. *)
Ltac div_facts :=
  repeat match goal with
    | |- context [ ?a / ?b ] => div_fact a b
    | |- context [ ?a mod ?b ] => div_fact a b
    | _ : context [ ?a / ?b ] |- _ => div_fact a b
    | _ : context [ ?a mod ?b ] |- _ => div_fact a b
    end.

Lemma regroup_first (x y : N) :
  y < 256 -> x / 4 * 4 + (x mod 4 * 16 + y / 16) / 16 = x.
Proof. intros. div_facts. lia. Qed.

Lemma regroup_second (x y z : N) :
  y < 256 -> z < 256 ->
  (x mod 4 * 16 + y / 16) mod 16 * 16 + (y mod 16 * 4 + z / 64) / 4 = y.
Proof. intros. div_facts. lia. Qed.

Lemma regroup_third (y z : N) :
  z < 256 -> (y mod 16 * 4 + z / 64) mod 4 * 64 + z mod 64 = z.
Proof. intros. div_facts. lia. Qed.

Lemma regroup_first_tail (x : N) : x / 4 * 4 + (x mod 4 * 16) / 16 = x.
Proof. div_facts. lia. Qed.

Lemma regroup_second_tail (x y : N) :
  y < 256 ->
  (x mod 4 * 16 + y / 16) mod 16 * 16 + (y mod 16 * 4) / 4 = y.
Proof. intros. div_facts. lia. Qed.

Lemma groups_small (x y : N) :
  x < 256 -> y < 256 ->
  x / 4 < 64 /\ x mod 4 * 16 + y / 16 < 64 /\ y mod 16 * 4 + x / 64 < 64
  /\ x mod 64 < 64 /\ x mod 4 * 16 < 64 /\ y mod 16 * 4 < 64.
Proof. intros. div_facts. lia. Qed.

Lemma to_N_lt (b : byte) : Byte.to_N b < 256.
Proof. pose proof (Byte.to_N_bounded b). lia. Qed.

Lemma byte_of_to_N (b : byte) : byte_of_N (Byte.to_N b) = b.
Proof. unfold byte_of_N. now rewrite Byte.of_to_N. Qed.

(** Lists three elements at a time. *)
Lemma list_ind3 {A} (P : list A -> Prop) :
  P [] -> (forall a, P [a]) -> (forall a b, P [a; b]) ->
  (forall a b c l, P l -> P (a :: b :: c :: l)) ->
  forall l, P l.
Proof.
  intros H0 H1 H2 H3 l.
  cut (P l /\ (forall a, P (a :: l)) /\ (forall a b, P (a :: b :: l))).
  { intros [Hl _]. exact Hl. }
  induction l as [|x l (IH0 & IH1 & IH2)].
  - auto.
  - repeat split; auto.
Qed.

Lemma dec6_enc6_table :
  forallb (fun n => match dec6 (enc6 n) with
                    | Some m => N.eqb m n
                    | None => false
                    end)
    (map N.of_nat (seq 0 64)) = true.
Proof. vm_compute. reflexivity. Qed.

Lemma dec6_enc6 (n : N) : n < 64 -> dec6 (enc6 n) = Some n.
Proof.
  intros Hn.
  assert (Hin : In n (map N.of_nat (seq 0 64))).
  { apply in_map_iff. exists (N.to_nat n). split; [lia|].
    apply in_seq. lia. }
  pose proof (proj1 (forallb_forall _ _) dec6_enc6_table n Hin) as Ht.
  cbv beta in Ht.
  destruct (dec6 (enc6 n)) as [m|]; [|discriminate Ht].
  f_equal. now apply N.eqb_eq.
Qed.

Lemma groups_of_bytes_small (l : list byte) :
  Forall (fun n => n < 64) (groups_of_bytes l).
Proof.
  induction l as [|a|a b|a b c l IH] using list_ind3; cbn [groups_of_bytes].
  - constructor.
  - pose proof (groups_small _ _ (to_N_lt a) (to_N_lt a)).
    repeat constructor; tauto.
  - pose proof (groups_small _ _ (to_N_lt a) (to_N_lt b)).
    pose proof (groups_small _ _ (to_N_lt b) (to_N_lt b)).
    repeat constructor; tauto.
  - pose proof (groups_small _ _ (to_N_lt a) (to_N_lt b)).
    pose proof (groups_small _ _ (to_N_lt c) (to_N_lt b)).
    cbn [app]. repeat (constructor; [tauto|]). exact IH.
Qed.

Lemma bytes_of_groups_of_bytes (l : list byte) :
  bytes_of_groups (groups_of_bytes l) = Some l.
Proof.
  induction l as [|a|a b|a b c l IH] using list_ind3.
  - reflexivity.
  - cbn [groups_of_bytes bytes_of_groups].
    now rewrite regroup_first_tail, byte_of_to_N.
  - cbn [groups_of_bytes bytes_of_groups].
    rewrite regroup_first by apply to_N_lt.
    rewrite regroup_second_tail by apply to_N_lt.
    now rewrite !byte_of_to_N.
  - cbn [groups_of_bytes bytes_of_groups app]. rewrite IH.
    rewrite regroup_first by apply to_N_lt.
    rewrite regroup_second by apply to_N_lt.
    rewrite regroup_third by apply to_N_lt.
    now rewrite !byte_of_to_N.
Qed.

End Base64Facts.

(** Decoding undoes encoding. *)
Lemma base64URLDecode_Encode (b : list byte) :
  base64URLDecode (base64URLEncode b) = Some b.
Proof.
  unfold base64URLDecode, base64URLEncode.
  rewrite list_ascii_of_string_of_list_ascii.
  rewrite (mapM_fmap_Forall_Some Base64.dec6 Base64.enc6).
  - apply Base64Facts.bytes_of_groups_of_bytes.
  - eapply Forall_impl; [apply Base64Facts.groups_of_bytes_small|].
    intros n Hn. now apply Base64Facts.dec6_enc6.
Qed.


(** ** Strings *)

Lemma string_forall_app (p : ascii -> bool) (s t : string) :
  string_forall p (s +:+ t) = string_forall p s && string_forall p t.
Proof.
  induction s as [|c s IH]; [reflexivity|].
  change (String c s +:+ t) with (String c (s +:+ t)).
  cbn [string_forall]. rewrite IH. now rewrite andb_assoc.
Qed.

Lemma string_forall_impl (p q : ascii -> bool) (s : string) :
  (forall c, p c = true -> q c = true) ->
  string_forall p s = true -> string_forall q s = true.
Proof.
  intros Hpq. induction s as [|c s IH]; [reflexivity|].
  cbn. intros [Hc Hs]%andb_true_iff.
  apply andb_true_iff. auto.
Qed.

Lemma string_forall_of_list (p : ascii -> bool) (l : list ascii) :
  Forall (fun c => p c = true) l ->
  string_forall p (string_of_list_ascii l) = true.
Proof.
  induction 1 as [|c l Hc _ IH]; [reflexivity|].
  cbn. now rewrite Hc, IH.
Qed.

(** The encoder writes characters of the alphabet only. *)
Lemma base64URLEncode_alphabet (b : list byte) :
  string_forall is_base64url (base64URLEncode b) = true.
Proof.
  unfold base64URLEncode. apply string_forall_of_list.
  apply Forall_map.
  eapply Forall_impl; [apply Base64Facts.groups_of_bytes_small|].
  intros n Hn. cbn beta. unfold is_base64url.
  now rewrite Base64Facts.dec6_enc6.
Qed.

Lemma base64url_not_dot (c : ascii) : is_base64url c = true -> not_dot c = true.
Proof.
  unfold not_dot. destruct (Ascii.eqb_spec c "."%char) as [->|]; [|reflexivity].
  vm_compute. discriminate.
Qed.

Lemma base64url_not_space (c : ascii) :
  is_base64url c = true -> is_space c = false.
Proof.
  destruct c as [[] [] [] [] [] [] [] []]; vm_compute;
    first [reflexivity | discriminate].
Qed.

Lemma base64url_not_brace (c : ascii) :
  is_base64url c = true -> Ascii.eqb "{" c = false.
Proof.
  destruct (Ascii.eqb_spec "{"%char c) as [<-|]; [|reflexivity].
  vm_compute. discriminate.
Qed.

(** A text without the separator is one piece. *)
Lemma split_one (s : string) :
  string_forall not_dot s = true -> split "." s = [s].
Proof.
  induction s as [|c s IH]; [reflexivity|].
  cbn [string_forall split]. intros [Hc Hs]%andb_true_iff. rewrite (IH Hs).
  unfold not_dot in Hc. now destruct (Ascii.eqb c ".").
Qed.

(** The first piece of a text is what stands before the first separator. *)
Lemma split_cons (s t : string) :
  string_forall not_dot s = true ->
  split "." (s +:+ String "." t) = s :: split "." t.
Proof.
  induction s as [|c s IH].
  - intros _. change (EmptyString +:+ ?x) with x.
    cbn [split]. now rewrite Ascii.eqb_refl.
  - change (String c s +:+ ?x) with (String c (s +:+ x)).
    cbn [string_forall split]. intros [Hc Hs]%andb_true_iff. rewrite (IH Hs).
    unfold not_dot in Hc. now destruct (Ascii.eqb c ".").
Qed.

Lemma split_joinCompact (p k i c t : string) :
  string_forall not_dot p = true -> string_forall not_dot k = true ->
  string_forall not_dot i = true -> string_forall not_dot c = true ->
  string_forall not_dot t = true ->
  split "." (joinCompact p k i c t) = [p; k; i; c; t].
Proof.
  intros Hp Hk Hi Hc Ht. unfold joinCompact.
  assert (Hdot : forall x, "." +:+ x = String "."%char x) by reflexivity.
  rewrite !Hdot.
  rewrite (split_cons p), (split_cons k), (split_cons i), (split_cons c)
    by assumption.
  now rewrite split_one.
Qed.

(** White space is all that stripping removes. *)
Lemma stripWhitespace_id (s : string) :
  string_forall (fun c => negb (is_space c)) s = true ->
  stripWhitespace s = s.
Proof.
  induction s as [|c s IH]; [reflexivity|].
  cbn. intros [Hc Hs]%andb_true_iff. rewrite (IH Hs).
  now destruct (is_space c).
Qed.

Lemma split_nonempty (s : string) : split "." s <> [].
Proof.
  destruct s as [|c s]; [discriminate|].
  cbn. destruct (Ascii.eqb c "."); [discriminate|].
  destruct (split "." s); discriminate.
Qed.

Lemma string_forall_joinCompact (q : ascii -> bool) (p k i c t : string) :
  q "."%char = true ->
  string_forall q p = true -> string_forall q k = true ->
  string_forall q i = true -> string_forall q c = true ->
  string_forall q t = true ->
  string_forall q (joinCompact p k i c t) = true.
Proof.
  intros Hq Hp Hk Hi Hc Ht. unfold joinCompact.
  rewrite !string_forall_app, Hp, Hk, Hi, Hc, Ht.
  cbn [string_forall]. now rewrite Hq.
Qed.

Lemma compact_char_not_space (s : string) :
  string_forall compact_char s = true -> stripWhitespace s = s.
Proof.
  intros Hs. apply stripWhitespace_id.
  revert Hs. apply string_forall_impl. intros c.
  unfold compact_char. intros [Hc|Hc]%orb_true_iff.
  - now rewrite base64url_not_space.
  - apply Ascii.eqb_eq in Hc. now subst c.
Qed.

Lemma compact_char_not_brace (s : string) :
  string_forall compact_char s = true -> hasPrefixBrace s = false.
Proof.
  destruct s as [|c s]; [reflexivity|].
  cbn [string_forall]. intros [Hc _]%andb_true_iff.
  unfold hasPrefixBrace. cbn [String.prefix].
  unfold compact_char in Hc. apply orb_true_iff in Hc as [Hc|Hc].
  - destruct (ascii_dec "{" c) as [<-|]; [|reflexivity].
    apply base64url_not_brace in Hc. discriminate Hc.
  - apply Ascii.eqb_eq in Hc. now subst c.
Qed.

(** ** Header merge *)

Lemma lookup_merge (dst : Header) (src : option Header) (key : string) :
  merge dst src !! key =
    match entry src key with
    | Some v => Some v
    | None => dst !! key
    end.
Proof.
  destruct src as [s|]; cbn [merge entry]; [|reflexivity].
  unfold Header in *. rewrite lookup_union. destruct (s !! key), (dst !! key); reflexivity.
Qed.

(** C9. The merged header of a recipient is the overlay, on an empty
    header, of the protected header, then the unprotected header, then the
    header of the recipient: the entry of a key is the one of the last of
    these that has the key, in that order; a header that is absent
    contributes nothing, and a key that none of them has is not in the
    result. The functions are pure: they build a new header and leave the
    headers they read as they were. *)
Theorem mergedHeaders_overlay (obj : JsonWebEncryption)
    (recipient : option recipientInfo) (key : string) :
  mergedHeaders obj recipient !! key =
    match entry (recipient ≫= header) key with
    | Some v => Some v
    | None =>
        match entry (unprotected obj) key with
        | Some v => Some v
        | None => entry (protected obj) key
        end
    end.
Proof.
  unfold mergedHeaders.
  assert (Hbase : forall k : string,
             merge (merge ∅ (protected obj)) (unprotected obj) !! k =
               match entry (unprotected obj) k with
               | Some v => Some v
               | None => entry (protected obj) k
               end).
  { intros k. rewrite !lookup_merge. unfold Header. rewrite lookup_empty.
    destruct (entry (unprotected obj) k); [reflexivity|].
    destruct (entry (protected obj) k); reflexivity. }
  destruct recipient as [r|]; cbn [mbind option_bind entry].
  - rewrite lookup_merge, Hbase. reflexivity.
  - apply Hbase.
Qed.

(** ** Outcomes *)

Lemma bind_Ok {A B} (r : result A) (k : A -> result B) (b : B) :
  r ≫= k = Ok b <-> exists a, r = Ok a /\ k a = Ok b.
Proof.
  unfold mbind, result_bind. destruct r as [a|e|]; split.
  - eauto.
  - intros (a' & [= <-] & Hk). exact Hk.
  - discriminate.
  - intros (a' & [=] & _).
  - discriminate.
  - intros (a' & [=] & _).
Qed.

Lemma orErr_Ok {A} (e : error) (o : option A) (a : A) :
  orErr e o = Ok a <-> o = Some a.
Proof. destruct o; cbn; split; congruence. Qed.

Lemma orErr_None {A} (e : error) (o : option A) :
  o = None -> orErr e o = Err e.
Proof. now intros ->. Qed.

(** Splits the successful run of a sequence of steps into its steps. *)
Ltac invert_Ok H :=
  repeat match type of H with
    | _ ≫= _ = Ok _ =>
        let x := fresh "x" in
        let Hx := fresh "Hx" in
        apply bind_Ok in H as (x & Hx & H);
        try apply orErr_Ok in Hx
    end.

Section Facts.

Context `{JSONCodec}.

(** ** The compact parser *)

(** What a successful compact parse has read. *)
Lemma parseEncryptedCompact_Ok (input : string) (obj : JsonWebEncryption) :
  parseEncryptedCompact input = Ok obj ->
  exists p0 p1 p2 p3 p4 rawProtected decoded key i c t,
    split "." input = [p0; p1; p2; p3; p4]
    /\ base64URLDecode p0 = Some rawProtected
    /\ json_unmarshal_Header rawProtected = Some decoded
    /\ missingAlgEnc (default ∅ decoded) = false
    /\ base64URLDecode p1 = Some key
    /\ base64URLDecode p2 = Some i
    /\ base64URLDecode p3 = Some c
    /\ base64URLDecode p4 = Some t
    /\ obj = {| protected := Some (default ∅ decoded);
                unprotected := None;
                recipients := [ {| header := None; encryptedKey := Some key |} ];
                aad := None;
                iv := Some i;
                ciphertext := Some c;
                tag := Some t;
                original :=
                  Some {| raw_Protected := newBuffer (Some rawProtected);
                          raw_Unprotected := None;
                          raw_Header := None;
                          raw_Recipients := [];
                          raw_Aad := None;
                          raw_EncryptedKey := newBuffer (Some key);
                          raw_Iv := newBuffer (Some i);
                          raw_Ciphertext := newBuffer (Some c);
                          raw_Tag := newBuffer (Some t) |} |}.
Proof.
  unfold parseEncryptedCompact.
  destruct (split "." input) as [|p0 [|p1 [|p2 [|p3 [|p4 [|p5 ps]]]]]];
    cbn [length Nat.eqb negb nth]; try discriminate.
  intros Hp. invert_Ok Hp.
  destruct (missingAlgEnc (default ∅ x0)) eqn:Hmiss; [discriminate Hp|].
  invert_Ok Hp. injection Hp as <-.
  exists p0, p1, p2, p3, p4, x, x0, x1, x2, x3, x4.
  repeat split; assumption.
Qed.

(** What a successful parse of a raw struct has built. *)
Lemma fromRaw_Ok (parsed : rawJsonWebEncryption) (obj : JsonWebEncryption) :
  fromRaw parsed = Ok obj ->
  exists prot rs,
    decodeProtected parsed = Ok prot
    /\ buildRecipients parsed = Ok rs
    /\ obj = {| protected := prot;
                unprotected := raw_Unprotected parsed;
                recipients := rs;
                aad := bytes (raw_Aad parsed);
                iv := bytes (raw_Iv parsed);
                ciphertext := bytes (raw_Ciphertext parsed);
                tag := bytes (raw_Tag parsed);
                original := Some parsed |}.
Proof.
  unfold fromRaw. intros Hp. invert_Ok Hp. injection Hp as <-.
  exists x, x0. repeat split; assumption.
Qed.

(** A parsed envelope keeps the raw struct it was read from. *)
Lemma ParseEncrypted_original (input : string) (obj : JsonWebEncryption) :
  ParseEncrypted input = Ok obj -> exists orig, original obj = Some orig.
Proof.
  unfold ParseEncrypted.
  destruct (hasPrefixBrace (stripWhitespace input)).
  - unfold parseEncryptedFull. intros Hp. invert_Ok Hp.
    apply fromRaw_Ok in Hp as (prot & rs & _ & _ & ->).
    cbn. eauto.
  - intros Hp.
    apply parseEncryptedCompact_Ok in Hp
      as (p0 & p1 & p2 & p3 & p4 & rp & d & k & i & c & t & Hp).
    destruct Hp as (_ & _ & _ & _ & _ & _ & _ & _ & ->).
    cbn. eauto.
Qed.

(** ** Authenticated data *)

Lemma bytes_without_dot (s : string) :
  string_forall not_dot s = true ->
  ~ In (byte_of_ascii ".") (list_byte_of_string s).
Proof.
  unfold list_byte_of_string.
  induction s as [|c s IH]; cbn [string_forall list_ascii_of_string map In].
  - tauto.
  - intros [Hc Hs]%andb_true_iff [Heq|Hin]; [|now apply IH].
    apply (f_equal ascii_of_byte) in Heq.
    rewrite !ascii_of_byte_of_ascii in Heq. subst c. discriminate Hc.
Qed.

Lemma base64URLEncode_without_dot (b : list byte) :
  string_forall not_dot (base64URLEncode b) = true.
Proof.
  eapply string_forall_impl; [|apply base64URLEncode_alphabet].
  apply base64url_not_dot.
Qed.

(** The authenticated data, in one equation. *)
Lemma computeAuthData_eq (obj : JsonWebEncryption) :
  computeAuthData obj =
    list_byte_of_string (base64URLEncode (protectedBytes obj))
      ++ aadSuffix (aad obj).
Proof.
  unfold computeAuthData, protectedBytes, base64, aadSuffix.
  destruct (original obj), (aad obj);
    rewrite <- ?app_assoc, ?app_nil_r; reflexivity.
Qed.

(** C2. The authenticated data are the base64url text of the bytes of
    the protected header (the bytes kept from parsing when the envelope
    has them, the serialization of the protected header otherwise),
    followed, only when [aad] is there, by a dot and the base64url text
    of [aad]. Every parsed envelope has kept bytes; with no [aad] the
    result is their base64url text alone, and it holds no dot. *)
Theorem computeAuthData_spec (obj : JsonWebEncryption) :
  computeAuthData obj =
    list_byte_of_string (base64URLEncode (protectedBytes obj))
      ++ match aad obj with
         | Some a =>
             byte_of_ascii "." :: list_byte_of_string (base64URLEncode a)
         | None => []
         end
  /\ (forall input,
        ParseEncrypted input = Ok obj ->
        exists orig,
          original obj = Some orig
          /\ protectedBytes obj = contents (bytes (raw_Protected orig)))
  /\ (aad obj = None ->
      computeAuthData obj =
        list_byte_of_string (base64URLEncode (protectedBytes obj))
      /\ ~ In (byte_of_ascii ".") (computeAuthData obj)).
Proof.
  pose proof (computeAuthData_eq obj) as Hmain.
  unfold aadSuffix in Hmain.
  split; [exact Hmain|]. split.
  - intros input Hp.
    destruct (ParseEncrypted_original _ _ Hp) as [orig Ho].
    exists orig. split; [exact Ho|].
    unfold protectedBytes. now rewrite Ho.
  - intros Ha. rewrite Hmain, Ha, app_nil_r. split; [reflexivity|].
    apply bytes_without_dot, base64URLEncode_without_dot.
Qed.

(** ** Compact serialization *)

(** C5. [CompactSerialize] returns [ErrNotSupported], and no text, if
    and only if the envelope has more than one recipient, or has an
    unprotected header, or its sole recipient has a header. Otherwise,
    on an envelope that has a recipient, it returns the five base64url
    segments of the serialized protected header, the encrypted key, the
    iv, the ciphertext and the tag, joined by dots. *)
Theorem CompactSerialize_spec (obj : JsonWebEncryption) :
  (CompactSerialize obj = Err ErrNotSupported <-> unsupportedShape obj)
  /\ (recipients obj <> [] -> ~ unsupportedShape obj ->
      exists r,
        recipients obj = [r]
        /\ CompactSerialize obj =
             Ok (joinCompact
                   (base64URLEncode (mustSerializeJSON (protected obj)))
                   (base64URLEncode (contents (encryptedKey r)))
                   (base64URLEncode (contents (iv obj)))
                   (base64URLEncode (contents (ciphertext obj)))
                   (base64URLEncode (contents (tag obj))))).
Proof.
  unfold CompactSerialize, unsupportedShape.
  destruct (recipients obj) as [|r [|r' rs]] eqn:Hrs; cbn [length first].
  - (* no recipient *)
    split; [|intros Hne; now destruct Hne].
    change (1 <? 0)%nat with false. cbv iota.
    case_bool_decide as Hu.
    + split; [auto|reflexivity].
    + cbn. split; [discriminate|].
      intros [Hlt|[Hun|(r & [=] & _)]]; [lia|contradiction].
  - (* one recipient *)
    change (1 <? 1)%nat with false. cbv iota.
    case_bool_decide as Hu.
    + split; [split; auto|]. intros _ Hn. exfalso. apply Hn. auto.
    + cbn [mbind result_bind].
      case_bool_decide as Hh.
      * split; [split; eauto|]. intros _ Hn. exfalso. apply Hn. eauto.
      * split.
        -- split; [discriminate|].
           intros [Hlt|[Hun|(r0 & [= <-] & Hr0)]];
             [lia|contradiction|contradiction].
        -- intros _ _. exists r. split; reflexivity.
  - (* several recipients *)
    change (1 <? S (S (length rs)))%nat with true. cbv iota.
    split.
    + split; [intros _; left; lia|reflexivity].
    + intros _ Hn. exfalso. apply Hn. left. lia.
Qed.

(** C10. An envelope that the compact parser returns has exactly one
    recipient, with no header, and has no unprotected header; hence
    [CompactSerialize] does not return [ErrNotSupported] on it, but a
    text. *)
Theorem parseEncryptedCompact_shape (input : string)
    (obj : JsonWebEncryption) :
  parseEncryptedCompact input = Ok obj ->
  (exists r, recipients obj = [r] /\ header r = None)
  /\ unprotected obj = None
  /\ CompactSerialize obj <> Err ErrNotSupported
  /\ exists text, CompactSerialize obj = Ok text.
Proof.
  intros Hp.
  apply parseEncryptedCompact_Ok in Hp
    as (p0 & p1 & p2 & p3 & p4 & rp & d & k & i & c & t & Hp).
  destruct Hp as (_ & _ & _ & _ & _ & _ & _ & _ & ->).
  cbn [recipients unprotected]. repeat split.
  - eauto.
  - discriminate.
  - eexists. reflexivity.
Qed.

(** ** Full serialization *)

(** The raw struct of an envelope with a recipient. *)
Lemma fullRaw_Ok (obj : JsonWebEncryption) (r0 : recipientInfo)
    (rs : list recipientInfo) :
  recipients obj = r0 :: rs ->
  fullRaw obj =
    Ok {| raw_Protected :=
            newBuffer (Some (mustSerializeJSON (protected obj)));
          raw_Unprotected := unprotected obj;
          raw_Header := match rs with [] => header r0 | _ => None end;
          raw_Recipients :=
            match rs with
            | [] => []
            | _ => map (fun r =>
                          {| rri_Header := header r;
                             rri_EncryptedKey :=
                               base64URLEncode (contents (encryptedKey r)) |})
                     (r0 :: rs)
            end;
          raw_Aad := newBuffer (aad obj);
          raw_EncryptedKey := newBuffer (encryptedKey r0);
          raw_Iv := newBuffer (iv obj);
          raw_Ciphertext := newBuffer (ciphertext obj);
          raw_Tag := newBuffer (tag obj) |}.
Proof.
  intros Hrs. unfold fullRaw. rewrite Hrs.
  destruct rs as [|r1 rs]; reflexivity.
Qed.

Lemma assoc_app_None (key : string) (xs ys : list (string * json)) :
  assoc key xs = None -> assoc key (xs ++ ys) = assoc key ys.
Proof.
  induction xs as [|[k v] xs IH]; [reflexivity|].
  cbn [assoc app]. destruct (String.eqb k key); [discriminate|exact IH].
Qed.

Lemma assoc_omitempty_ptr {A} `{ToJSON A} (key name : string)
    (p : option A) :
  String.eqb name key = false -> assoc key (omitempty_ptr name p) = None.
Proof. intros Hne. destruct p; cbn; now rewrite ?Hne. Qed.

(** With more than one recipient, the [recipients] array has one entry
    per recipient, with the header of the recipient, if any, and the
    base64url text of its key, and there is no top-level [header]. *)
Lemma FullSerialize_recipients (obj : JsonWebEncryption) :
  (1 < length (recipients obj))%nat ->
  exists raw,
    FullSerialize obj = Ok (string_of_list_byte (mustSerializeJSON raw))
    /\ json_field "recipients" (to_json raw)
       = Some (JArray (map recipientEntry (recipients obj)))
    /\ json_field "header" (to_json raw) = None.
Proof.
  intros Hlen.
  destruct (recipients obj) as [|r0 [|r1 rs]] eqn:Hrs;
    cbn [length] in Hlen; try lia.
  eexists. unfold FullSerialize.
  rewrite (fullRaw_Ok obj r0 (r1 :: rs) Hrs).
  cbn [mbind result_bind]. split; [reflexivity|].
  split.
  - unfold to_json at 1, rawJsonWebEncryption_to_json, json_field.
    cbn [raw_Protected raw_Unprotected raw_Header raw_Recipients raw_Aad
         raw_EncryptedKey raw_Iv raw_Ciphertext raw_Tag].
    rewrite !assoc_app_None by (now apply assoc_omitempty_ptr).
    cbn [omitempty_slice map app assoc].
    rewrite String.eqb_refl, map_map. reflexivity.
  - unfold to_json at 1, rawJsonWebEncryption_to_json, json_field.
    cbn [raw_Protected raw_Unprotected raw_Header raw_Recipients raw_Aad
         raw_EncryptedKey raw_Iv raw_Ciphertext raw_Tag].
    rewrite !assoc_app_None by (now apply assoc_omitempty_ptr).
    cbn [omitempty_ptr app].
    rewrite assoc_app_None by reflexivity.
    repeat (rewrite assoc_app_None by (now apply assoc_omitempty_ptr)).
    now apply assoc_omitempty_ptr.
Qed.

(** With more than one recipient, the first of which has a key, the
    output has the top-level [encrypted_key] of the flattened form all
    the same: the field is set when the raw struct is created and stays
    set. *)
Lemma FullSerialize_encrypted_key (obj : JsonWebEncryption)
    (r0 : recipientInfo) (rs : list recipientInfo) (k : list byte) :
  recipients obj = r0 :: rs -> encryptedKey r0 = Some k ->
  exists raw,
    FullSerialize obj = Ok (string_of_list_byte (mustSerializeJSON raw))
    /\ json_field "encrypted_key" (to_json raw)
       = Some (JString (base64URLEncode k)).
Proof.
  intros Hrs Hk. eexists. unfold FullSerialize.
  rewrite (fullRaw_Ok obj r0 rs Hrs).
  cbn [mbind result_bind]. split; [reflexivity|].
  unfold to_json at 1, rawJsonWebEncryption_to_json, json_field.
  cbn [raw_Protected raw_Unprotected raw_Header raw_Recipients raw_Aad
       raw_EncryptedKey raw_Iv raw_Ciphertext raw_Tag].
  rewrite Hk.
  repeat (rewrite assoc_app_None by (now apply assoc_omitempty_ptr)).
  rewrite assoc_app_None.
  - rewrite assoc_app_None by (now apply assoc_omitempty_ptr).
    reflexivity.
  - destruct rs; reflexivity.
Qed.

(** C1, at an envelope for two recipients with the keys k1 and k2. The
    output has the [recipients] array, one entry per recipient, and no
    top-level [header]; but it has a top-level [encrypted_key], the key
    of the first recipient. *)
Theorem FullSerialize_pair :
  exists raw,
    FullSerialize Sample.pair
      = Ok (string_of_list_byte (mustSerializeJSON raw))
    /\ json_field "recipients" (to_json raw)
       = Some (JArray [ JObject [ ("encrypted_key", JString "azE") ];
                        JObject [ ("encrypted_key", JString "azI") ] ])
    /\ json_field "header" (to_json raw) = None
    /\ json_field "encrypted_key" (to_json raw) = Some (JString "azE").
Proof.
  eexists. unfold FullSerialize.
  rewrite (fullRaw_Ok Sample.pair _ _ eq_refl).
  cbn [mbind result_bind]. split; [reflexivity|].
  repeat split.
Qed.

(** ** Origin bytes *)

(** C3, as amended. On an envelope that keeps the protected bytes it was
    parsed from, those bytes are used as they are for the authenticated
    data. They are not used for the [protected] field of the full-JSON
    serialization: of any envelope, parsed or built by hand, that field
    is the base64url text of the protected header serialized on demand.
    For the authenticated data, only an envelope built by hand, which
    keeps nothing, serializes the protected header on demand. *)
Theorem origin_bytes_use (obj : JsonWebEncryption) :
  (forall orig b,
      original obj = Some orig ->
      raw_Protected orig = Some b ->
      computeAuthData obj =
        list_byte_of_string (base64URLEncode (contents (buf b)))
          ++ aadSuffix (aad obj))
  /\ (original obj = None ->
      computeAuthData obj =
        list_byte_of_string
          (base64URLEncode (mustSerializeJSON (protected obj)))
          ++ aadSuffix (aad obj))
  /\ (forall raw,
        fullRaw obj = Ok raw ->
        raw_Protected raw
          = newBuffer (Some (mustSerializeJSON (protected obj)))
        /\ json_field "protected" (to_json raw)
           = Some (JString
                     (base64URLEncode
                        (mustSerializeJSON (protected obj))))).
Proof.
  pose proof (computeAuthData_eq obj) as Hmain.
  split; [|split].
  - intros orig b Ho Hb. rewrite Hmain. unfold protectedBytes.
    now rewrite Ho, Hb.
  - intros Ho. rewrite Hmain. unfold protectedBytes. now rewrite Ho.
  - intros raw Hraw. unfold fullRaw in Hraw. invert_Ok Hraw.
    injection Hraw as <-. split; reflexivity.
Qed.

(** ** Segments of the compact form *)




(** ** The full parser *)

Lemma missingAlgEnc_true (h : Header) :
  missingAlgEnc h = true <-> Alg h = EmptyString \/ Enc h = EmptyString.
Proof.
  unfold missingAlgEnc. rewrite orb_true_iff, !String.eqb_eq. tauto.
Qed.

Lemma lookup_mergedOf (prot unprot : option Header) (r : recipientInfo)
    (key : string) :
  mergedOf prot unprot r !! key =
    match entry (header r) key with
    | Some v => Some v
    | None =>
        match entry unprot key with
        | Some v => Some v
        | None => entry prot key
        end
    end.
Proof.
  unfold mergedOf. rewrite !lookup_merge.
  unfold Header. rewrite lookup_empty.
  destruct (entry (header r) key); [reflexivity|].
  destruct (entry unprot key); [reflexivity|].
  destruct (entry prot key); reflexivity.
Qed.

(** The second loop stops at the first recipient that lacks [alg] or
    [enc], and at no other. *)
Lemma checkRecipients_spec (obj : JsonWebEncryption)
    (rs : list recipientInfo) :
  checkRecipients obj rs =
    if forallb (fun r => negb (missingAlgEnc (mergedHeaders obj (Some r))))
         rs
    then Ok tt else Err MissingAlgEnc.
Proof.
  induction rs as [|r rs IH]; [reflexivity|].
  cbn [checkRecipients forallb].
  destruct (missingAlgEnc (mergedHeaders obj (Some r))); [reflexivity|].
  exact IH.
Qed.

(** The first loop keeps the headers and decodes the keys. *)
Lemma decodeRecipients_Ok (raws : list rawRecipientInfo)
    (rs : list recipientInfo) :
  decodeRecipients raws = Ok rs ->
  Forall2 (fun raw r =>
             header r = rri_Header raw
             /\ exists key,
                 base64URLDecode (rri_EncryptedKey raw) = Some key
                 /\ encryptedKey r = Some key)
    raws rs.
Proof.
  revert rs. induction raws as [|raw raws IH]; intros rs Hd.
  - injection Hd as <-. constructor.
  - cbn [decodeRecipients] in Hd. invert_Ok Hd. injection Hd as <-.
    constructor; [|now apply IH].
    cbn [header encryptedKey]. eauto.
Qed.

(** The parse of a raw struct whose header and recipients are read. *)
Lemma fromRaw_checked (parsed : rawJsonWebEncryption)
    (prot : option Header) (rs : list recipientInfo) :
  decodeProtected parsed = Ok prot ->
  buildRecipients parsed = Ok rs ->
  fromRaw parsed =
    if forallb (fun r =>
                  negb (missingAlgEnc
                          (mergedOf prot (raw_Unprotected parsed) r))) rs
    then Ok {| protected := prot;
               unprotected := raw_Unprotected parsed;
               recipients := rs;
               aad := bytes (raw_Aad parsed);
               iv := bytes (raw_Iv parsed);
               ciphertext := bytes (raw_Ciphertext parsed);
               tag := bytes (raw_Tag parsed);
               original := Some parsed |}
    else Err MissingAlgEnc.
Proof.
  intros Hprot Hrs. unfold fromRaw. rewrite Hprot, Hrs.
  cbn [mbind result_bind]. rewrite checkRecipients_spec.
  change (fun r => negb (missingAlgEnc (mergedHeaders _ (Some r))))
    with (fun r => negb (missingAlgEnc
                           (mergedOf prot (raw_Unprotected parsed) r))).
  destruct (forallb _ rs); reflexivity.
Qed.

(** C6. In the parse of a full-JSON message, once the protected header
    is decoded and the recipients are built, the parse fails with
    [MissingAlgEnc] whenever the merged header of a recipient has no
    [alg] or no [enc], or an empty one. In particular it fails when
    [enc] is in none of the protected header, the unprotected header
    and the header of a recipient, whether or not the header of the
    recipient supplies [alg]. *)
Theorem parseEncryptedFull_MissingAlgEnc (input : string)
    (parsed : rawJsonWebEncryption) (prot : option Header)
    (rs : list recipientInfo) :
  json_unmarshal_raw (list_byte_of_string input) = Some parsed ->
  decodeProtected parsed = Ok prot ->
  buildRecipients parsed = Ok rs ->
  (forall r,
      In r rs ->
      Alg (mergedOf prot (raw_Unprotected parsed) r) = EmptyString
      \/ Enc (mergedOf prot (raw_Unprotected parsed) r) = EmptyString ->
      parseEncryptedFull input = Err MissingAlgEnc)
  /\ (forall r,
        In r rs ->
        entry prot "enc" = None ->
        entry (raw_Unprotected parsed) "enc" = None ->
        entry (header r) "enc" = None ->
        parseEncryptedFull input = Err MissingAlgEnc).
Proof.
  intros Hraw Hprot Hrs.
  assert (Hmain : forall r,
             In r rs ->
             Alg (mergedOf prot (raw_Unprotected parsed) r) = EmptyString
             \/ Enc (mergedOf prot (raw_Unprotected parsed) r)
                = EmptyString ->
             parseEncryptedFull input = Err MissingAlgEnc).
  { intros r Hin Hmiss. unfold parseEncryptedFull. rewrite Hraw.
    cbn [orErr mbind result_bind].
    rewrite (fromRaw_checked parsed prot rs Hprot Hrs).
    destruct (forallb _ rs) eqn:Hall; [|reflexivity].
    rewrite forallb_forall in Hall. specialize (Hall r Hin).
    apply missingAlgEnc_true in Hmiss. rewrite Hmiss in Hall.
    discriminate Hall. }
  split; [exact Hmain|].
  intros r Hin Hp Hu Hr. apply (Hmain r Hin). right.
  unfold Enc, text_at. rewrite lookup_mergedOf, Hr, Hu, Hp. reflexivity.
Qed.

(** The first loop succeeds when every key decodes. *)
Lemma decodeRecipients_all (raws : list rawRecipientInfo) :
  Forall (fun entry => base64URLDecode (rri_EncryptedKey entry) <> None)
    raws ->
  exists rs, decodeRecipients raws = Ok rs.
Proof.
  induction 1 as [|e raws He _ [rs IH]]; [now exists []|].
  cbn [decodeRecipients].
  destruct (base64URLDecode (rri_EncryptedKey e)) as [k|]; [|contradiction].
  cbn [orErr mbind result_bind]. rewrite IH. cbn [mbind result_bind].
  eauto.
Qed.

(** The second loop passes recipients built from entries whose merged
    headers have [alg] and [enc]. *)
Lemma check_built (prot unprot : option Header)
    (raws : list rawRecipientInfo) (rs : list recipientInfo) :
  Forall2 (fun raw r =>
             header r = rri_Header raw
             /\ exists key,
                 base64URLDecode (rri_EncryptedKey raw) = Some key
                 /\ encryptedKey r = Some key)
    raws rs ->
  Forall (fun entry =>
            missingAlgEnc
              (merge (merge (merge ∅ prot) unprot) (rri_Header entry))
            = false) raws ->
  forallb (fun r => negb (missingAlgEnc (mergedOf prot unprot r))) rs = true.
Proof.
  induction 1 as [|e r raws rs [Hh _] _ IH]; [reflexivity|].
  intros Hall. apply Forall_cons in Hall as [He Hall].
  cbn [forallb]. rewrite (IH Hall), andb_true_r.
  unfold mergedOf. rewrite Hh, He. reflexivity.
Qed.

(** C8. In the parse of a full-JSON message whose [recipients] array is
    absent or empty, there is exactly one recipient, made of the
    top-level [header] and [encrypted_key]; neither is needed for the
    parse to succeed: it does whenever the protected header decodes and
    the merged header has [alg] and [enc], with no condition on the
    key, which may be absent or empty. Otherwise one recipient is built
    for each entry of the array, with the header of the entry and the
    base64url decoding of its key: the parse succeeds with these
    recipients whenever the protected header decodes, every key decodes
    and every merged header has [alg] and [enc]. *)
Theorem parseEncryptedFull_recipients (input : string)
    (parsed : rawJsonWebEncryption) :
  json_unmarshal_raw (list_byte_of_string input) = Some parsed ->
  (raw_Recipients parsed = [] ->
   (forall obj,
       parseEncryptedFull input = Ok obj ->
       recipients obj =
         [ {| header := raw_Header parsed;
              encryptedKey := bytes (raw_EncryptedKey parsed) |} ])
   /\ (forall prot,
         decodeProtected parsed = Ok prot ->
         missingAlgEnc
           (merge (merge (merge ∅ prot) (raw_Unprotected parsed))
              (raw_Header parsed)) = false ->
         exists obj, parseEncryptedFull input = Ok obj))
  /\ (raw_Recipients parsed <> [] ->
      (forall obj,
          parseEncryptedFull input = Ok obj ->
          Forall2 (fun raw r =>
                     header r = rri_Header raw
                     /\ exists key,
                         base64URLDecode (rri_EncryptedKey raw) = Some key
                         /\ encryptedKey r = Some key)
            (raw_Recipients parsed) (recipients obj))
      /\ (forall prot,
            decodeProtected parsed = Ok prot ->
            Forall (fun entry =>
                      base64URLDecode (rri_EncryptedKey entry) <> None)
              (raw_Recipients parsed) ->
            Forall (fun entry =>
                      missingAlgEnc
                        (merge (merge (merge ∅ prot)
                                  (raw_Unprotected parsed))
                           (rri_Header entry)) = false)
              (raw_Recipients parsed) ->
            exists obj,
              parseEncryptedFull input = Ok obj
              /\ Forall2 (fun raw r =>
                            header r = rri_Header raw
                            /\ exists key,
                                base64URLDecode (rri_EncryptedKey raw)
                                = Some key
                                /\ encryptedKey r = Some key)
                   (raw_Recipients parsed) (recipients obj))).
Proof.
  intros Hraw.
  assert (Hparse : parseEncryptedFull input = fromRaw parsed).
  { unfold parseEncryptedFull. now rewrite Hraw. }
  rewrite Hparse. split.
  - intros Hnone. split.
    + intros obj Hobj.
      apply fromRaw_Ok in Hobj as (prot & rs & _ & Hrs & ->).
      unfold buildRecipients in Hrs. rewrite Hnone in Hrs.
      injection Hrs as <-. reflexivity.
    + intros prot Hprot Hm.
      erewrite fromRaw_checked; [|exact Hprot|].
      2: { unfold buildRecipients. rewrite Hnone. reflexivity. }
      cbn [forallb]. unfold mergedOf. cbn [header].
      rewrite Hm. cbn. eauto.
  - intros Hsome.
    assert (Hbuild : buildRecipients parsed
                     = decodeRecipients (raw_Recipients parsed)).
    { unfold buildRecipients.
      destruct (raw_Recipients parsed); [contradiction|reflexivity]. }
    split.
    + intros obj Hobj.
      apply fromRaw_Ok in Hobj as (prot & rs & _ & Hrs & ->).
      cbn [recipients]. apply decodeRecipients_Ok. now rewrite <- Hbuild.
    + intros prot Hprot Hkeys Hheaders.
      destruct (decodeRecipients_all _ Hkeys) as [rs Hrs].
      pose proof (decodeRecipients_Ok _ _ Hrs) as Hsame.
      rewrite <- Hbuild in Hrs.
      rewrite (fromRaw_checked parsed prot rs Hprot Hrs).
      rewrite (check_built _ _ _ _ Hsame Hheaders).
      eexists. split; [reflexivity|exact Hsame].
Qed.

(** ** Round trip through the compact form *)

Lemma merge_empty (p : option Header) : merge ∅ p = default ∅ p.
Proof.
  destruct p as [h|]; cbn [merge default]; [|reflexivity].
  unfold Header in *. apply map_union_empty.
Qed.

Lemma base64URLEncode_compact (b : list byte) :
  string_forall compact_char (base64URLEncode b) = true.
Proof.
  eapply string_forall_impl; [|apply base64URLEncode_alphabet].
  intros c Hc. unfold compact_char. now rewrite Hc.
Qed.

(** The compact parser reads back the five segments that were
    written. *)
Lemma parseEncryptedCompact_joinCompact (hdr key i c t : list byte)
    (decoded : option Header) :
  json_unmarshal_Header hdr = Some decoded ->
  missingAlgEnc (default ∅ decoded) = false ->
  ParseEncrypted
    (joinCompact (base64URLEncode hdr) (base64URLEncode key)
       (base64URLEncode i) (base64URLEncode c) (base64URLEncode t))
  = Ok {| protected := Some (default ∅ decoded);
          unprotected := None;
          recipients := [ {| header := None; encryptedKey := Some key |} ];
          aad := None;
          iv := Some i;
          ciphertext := Some c;
          tag := Some t;
          original :=
            Some {| raw_Protected := newBuffer (Some hdr);
                    raw_Unprotected := None;
                    raw_Header := None;
                    raw_Recipients := [];
                    raw_Aad := None;
                    raw_EncryptedKey := newBuffer (Some key);
                    raw_Iv := newBuffer (Some i);
                    raw_Ciphertext := newBuffer (Some c);
                    raw_Tag := newBuffer (Some t) |} |}.
Proof.
  intros Hdec Hmiss. unfold ParseEncrypted.
  assert (Hchars :
            string_forall compact_char
              (joinCompact (base64URLEncode hdr) (base64URLEncode key)
                 (base64URLEncode i) (base64URLEncode c)
                 (base64URLEncode t)) = true).
  { apply string_forall_joinCompact;
      [reflexivity|apply base64URLEncode_compact..]. }
  rewrite (compact_char_not_space _ Hchars).
  rewrite (compact_char_not_brace _ Hchars).
  unfold parseEncryptedCompact.
  rewrite split_joinCompact by apply base64URLEncode_without_dot.
  cbn [length Nat.eqb negb nth].
  rewrite !base64URLDecode_Encode. cbn [orErr mbind result_bind].
  rewrite Hdec. cbn [orErr mbind result_bind].
  rewrite Hmiss. reflexivity.
Qed.

Lemma CompactSerialize_one (obj : JsonWebEncryption) (r : recipientInfo) :
  recipients obj = [r] -> unprotected obj = None -> header r = None ->
  CompactSerialize obj =
    Ok (joinCompact
          (base64URLEncode (mustSerializeJSON (protected obj)))
          (base64URLEncode (contents (encryptedKey r)))
          (base64URLEncode (contents (iv obj)))
          (base64URLEncode (contents (ciphertext obj)))
          (base64URLEncode (contents (tag obj)))).
Proof.
  intros Hrs Hu Hh. unfold CompactSerialize. rewrite Hrs, Hu.
  cbn [length first mbind result_bind]. rewrite Hh. reflexivity.
Qed.

(** C4. An envelope of the data model (its merged header has [alg] and
    [enc]) with exactly one recipient, no unprotected header and no
    header on the recipient is written by [CompactSerialize] to a text
    that [ParseEncrypted] reads back as an envelope with one recipient
    and the same merged header, iv, ciphertext, tag and encrypted key.
    The JSON decoder is taken to read back the header that the encoder
    wrote. *)
Theorem compact_roundtrip (obj : JsonWebEncryption) (r : recipientInfo) :
  recipients obj = [r] ->
  unprotected obj = None ->
  header r = None ->
  wellFormed obj ->
  json_unmarshal_Header (mustSerializeJSON (protected obj))
    = Some (protected obj) ->
  exists text obj' r',
    CompactSerialize obj = Ok text
    /\ ParseEncrypted text = Ok obj'
    /\ recipients obj' = [r']
    /\ mergedHeaders obj' (Some r') = mergedHeaders obj (Some r)
    /\ contents (iv obj') = contents (iv obj)
    /\ contents (ciphertext obj') = contents (ciphertext obj)
    /\ contents (tag obj') = contents (tag obj)
    /\ contents (encryptedKey r') = contents (encryptedKey r).
Proof.
  intros Hrs Hu Hh [_ Hwf] Hcodec.
  rewrite Hrs in Hwf. apply Forall_inv in Hwf.
  assert (Hmerged : mergedHeaders obj (Some r) = default ∅ (protected obj)).
  { unfold mergedHeaders. rewrite Hu, Hh. cbn [merge]. apply merge_empty. }
  rewrite Hmerged in Hwf |- *.
  eexists _, _, _. split; [exact (CompactSerialize_one obj r Hrs Hu Hh)|].
  split; [exact (parseEncryptedCompact_joinCompact _ _ _ _ _ _ Hcodec Hwf)|].
  cbn [recipients iv ciphertext tag encryptedKey contents].
  repeat split.
  unfold mergedHeaders. cbn [protected unprotected header merge].
  unfold Header in *. apply map_union_empty.
Qed.

End Facts.

(** The reference codec reads [Sample.compact_spaced] as
    [Sample.parsed_spaced]. *)
Lemma ParseEncrypted_spaced :
  @ParseEncrypted RefJSON.codec Sample.compact_spaced
  = Ok Sample.parsed_spaced.
Proof. vm_compute. reflexivity. Qed.

(** C3, as stated, fails. The envelope parsed from
    [Sample.compact_spaced] keeps the header bytes as received, with their
    spaces; the [protected] field of its full serialization is the text of
    the header serialized afresh, not that of the kept bytes. *)
Lemma FullSerialize_not_origin :
  ~ (forall (C : JSONCodec) (input : string) (obj : JsonWebEncryption)
            (orig raw : rawJsonWebEncryption),
        ParseEncrypted input = Ok obj ->
        original obj = Some orig ->
        fullRaw obj = Ok raw ->
        json_field "protected" (to_json raw)
        = Some (JString (base64 (raw_Protected orig)))).
Proof.
  intros Hclaim.
  pose proof (Hclaim RefJSON.codec _ Sample.parsed_spaced _ _
                ParseEncrypted_spaced eq_refl
                (@fullRaw_Ok RefJSON.codec Sample.parsed_spaced _ _ eq_refl))
    as Hc.
  vm_compute in Hc. discriminate Hc.
Qed.


(** ** The theorems at the sample messages, with the reference codec *)

Lemma computeAuthData_spec_witness :
  @ParseEncrypted RefJSON.codec Sample.compact_spaced
    = Ok Sample.parsed_spaced
  /\ aad Sample.parsed_spaced = None
  /\ @computeAuthData RefJSON.codec Sample.parsed_spaced
     = list_byte_of_string "eyJhbGciOiAiZGlyIiwgImVuYyI6ICJBMTI4R0NNIn0"
  /\ ~ In (byte_of_ascii ".")
         (@computeAuthData RefJSON.codec Sample.parsed_spaced).
Proof.
  split; [vm_compute; reflexivity|]. split; [reflexivity|].
  destruct (@computeAuthData_spec RefJSON.codec Sample.parsed_spaced)
    as (_ & _ & Hnone).
  destruct (Hnone eq_refl) as [Heq Hdot].
  split; [|exact Hdot].
  rewrite Heq. vm_compute. reflexivity.
Defined.

Lemma origin_bytes_use_witness :
  @ParseEncrypted RefJSON.codec Sample.compact_spaced
    = Ok Sample.parsed_spaced
  /\ @computeAuthData RefJSON.codec Sample.parsed_spaced
     = list_byte_of_string "eyJhbGciOiAiZGlyIiwgImVuYyI6ICJBMTI4R0NNIn0"
  /\ exists raw,
      @fullRaw RefJSON.codec Sample.parsed_spaced = Ok raw
      /\ json_field "protected" (to_json raw)
         = Some (JString
                   (base64URLEncode
                      (@mustSerializeJSON RefJSON.codec _ _
                         (protected Sample.parsed_spaced))))
      /\ json_field "protected" (to_json raw)
         <> Some (JString "eyJhbGciOiAiZGlyIiwgImVuYyI6ICJBMTI4R0NNIn0").
Proof.
  split; [vm_compute; reflexivity|].
  destruct (@origin_bytes_use RefJSON.codec Sample.parsed_spaced)
    as (Hkept & _ & Hfull).
  split.
  - rewrite (Hkept _ {| buf := Sample.text Sample.spaced_header |}
               eq_refl eq_refl).
    vm_compute. reflexivity.
  - pose proof (@fullRaw_Ok RefJSON.codec Sample.parsed_spaced _ _ eq_refl)
      as Hraw.
    eexists. split; [exact Hraw|].
    destruct (Hfull _ Hraw) as [_ Hfield].
    split; [exact Hfield|].
    rewrite Hfield. vm_compute. discriminate.
Defined.

Lemma compact_roundtrip_witness :
  wellFormed Sample.single
  /\ exists text obj' r',
      @CompactSerialize RefJSON.codec Sample.single = Ok text
      /\ @ParseEncrypted RefJSON.codec text = Ok obj'
      /\ recipients obj' = [r']
      /\ mergedHeaders obj' (Some r')
         = mergedHeaders Sample.single
             (Some {| header := None; encryptedKey := None |})
      /\ contents (iv obj') = contents (iv Sample.single)
      /\ contents (ciphertext obj') = contents (ciphertext Sample.single)
      /\ contents (tag obj') = contents (tag Sample.single)
      /\ contents (encryptedKey r') = [].
Proof.
  assert (Hwf : wellFormed Sample.single).
  { split; [discriminate|].
    constructor; [vm_compute; reflexivity|constructor]. }
  split; [exact Hwf|].
  apply (@compact_roundtrip RefJSON.codec Sample.single _
           eq_refl eq_refl eq_refl Hwf).
  vm_compute. reflexivity.
Defined.

Lemma CompactSerialize_spec_witness :
  recipients Sample.single <> []
  /\ ~ unsupportedShape Sample.single
  /\ exists r,
      recipients Sample.single = [r]
      /\ @CompactSerialize RefJSON.codec Sample.single =
           Ok (joinCompact
                 (base64URLEncode
                    (@mustSerializeJSON RefJSON.codec _ _
                       (protected Sample.single)))
                 (base64URLEncode (contents (encryptedKey r)))
                 (base64URLEncode (contents (iv Sample.single)))
                 (base64URLEncode (contents (ciphertext Sample.single)))
                 (base64URLEncode (contents (tag Sample.single)))).
Proof.
  assert (Hne : recipients Sample.single <> []) by discriminate.
  assert (Hshape : ~ unsupportedShape Sample.single).
  { unfold unsupportedShape. cbn.
    intros [Hlt|[Hu|(r & [= <-] & Hh)]]; [lia|now apply Hu|now apply Hh]. }
  split; [exact Hne|]. split; [exact Hshape|].
  exact (proj2 (@CompactSerialize_spec RefJSON.codec Sample.single)
           Hne Hshape).
Defined.

Lemma parseEncryptedFull_MissingAlgEnc_witness :
  @parseEncryptedFull RefJSON.codec Sample.full_no_enc = Err MissingAlgEnc.
Proof.
  refine (proj2 (@parseEncryptedFull_MissingAlgEnc RefJSON.codec
                   Sample.full_no_enc _
                   (Some (<["alg" := JString "dir"]> ∅))
                   [ {| header := Some (<["alg" := JString "dir"]> ∅);
                        encryptedKey := None |} ]
                   _ _ _) _ _ _ _ _).
  - vm_compute. reflexivity.
  - vm_compute. reflexivity.
  - vm_compute. reflexivity.
  - left. reflexivity.
  - vm_compute. reflexivity.
  - vm_compute. reflexivity.
  - vm_compute. reflexivity.
Defined.


Lemma parseEncryptedFull_recipients_witness :
  (exists obj,
      @parseEncryptedFull RefJSON.codec Sample.full_flat = Ok obj
      /\ recipients obj = [ {| header := None; encryptedKey := None |} ])
  /\ (exists obj,
        @parseEncryptedFull RefJSON.codec Sample.full_pair = Ok obj
        /\ Forall2 (fun raw r =>
                      header r = rri_Header raw
                      /\ exists key,
                          base64URLDecode (rri_EncryptedKey raw) = Some key
                          /\ encryptedKey r = Some key)
             [ {| rri_Header := None; rri_EncryptedKey := "azE" |};
               {| rri_Header := Some (<["kid" := JString "two"]> ∅);
                  rri_EncryptedKey := "azI" |} ]
             (recipients obj)).
Proof.
  split.
  - assert (Hraw : @json_unmarshal_raw RefJSON.codec
                     (list_byte_of_string Sample.full_flat)
                   = Some {| raw_Protected :=
                               newBuffer (Sample.text Sample.plain_header);
                             raw_Unprotected := None;
                             raw_Header := None;
                             raw_Recipients := [];
                             raw_Aad := None;
                             raw_EncryptedKey := None;
                             raw_Iv := newBuffer (Sample.text "abc");
                             raw_Ciphertext := newBuffer (Sample.text "def");
                             raw_Tag := newBuffer (Sample.text "ghi") |}).
    { vm_compute. reflexivity. }
    destruct (@parseEncryptedFull_recipients RefJSON.codec _ _ Hraw)
      as [Hflat _].
    destruct (Hflat eq_refl) as [Hone Haccept].
    destruct (Haccept (Some Sample.dir_header)) as [obj Hobj].
    + vm_compute. reflexivity.
    + vm_compute. reflexivity.
    + exists obj. split; [exact Hobj|]. exact (Hone obj Hobj).
  - assert (Hraw : @json_unmarshal_raw RefJSON.codec
                     (list_byte_of_string Sample.full_pair)
                   = Some {| raw_Protected :=
                               newBuffer (Sample.text Sample.plain_header);
                             raw_Unprotected := None;
                             raw_Header := None;
                             raw_Recipients :=
                               [ {| rri_Header := None;
                                    rri_EncryptedKey := "azE" |};
                                 {| rri_Header :=
                                      Some (<["kid" := JString "two"]> ∅);
                                    rri_EncryptedKey := "azI" |} ];
                             raw_Aad := None;
                             raw_EncryptedKey := None;
                             raw_Iv := newBuffer (Sample.text "abc");
                             raw_Ciphertext := newBuffer (Sample.text "def");
                             raw_Tag := newBuffer (Sample.text "ghi") |}).
    { vm_compute. reflexivity. }
    destruct (@parseEncryptedFull_recipients RefJSON.codec _ _ Hraw)
      as [_ Hmany].
    destruct (Hmany ltac:(discriminate)) as [_ Hbuilt].
    apply (Hbuilt (Some Sample.dir_header)).
    + vm_compute. reflexivity.
    + repeat constructor; vm_compute; discriminate.
    + repeat constructor; vm_compute; reflexivity.
Defined.

Lemma parseEncryptedCompact_shape_witness :
  exists obj,
    @parseEncryptedCompact RefJSON.codec Sample.compact_spaced = Ok obj
    /\ (exists r, recipients obj = [r] /\ header r = None)
    /\ unprotected obj = None
    /\ @CompactSerialize RefJSON.codec obj <> Err ErrNotSupported
    /\ exists text, @CompactSerialize RefJSON.codec obj = Ok text.
Proof.
  assert (Hp : @parseEncryptedCompact RefJSON.codec Sample.compact_spaced
               = Ok Sample.parsed_spaced) by (vm_compute; reflexivity).
  exists Sample.parsed_spaced. split; [exact Hp|].
  exact (@parseEncryptedCompact_shape RefJSON.codec _ _ Hp).
Defined.

(** * Further properties of [jwe.go] *)

Lemma stripWhitespace_app (s t : string) :
  stripWhitespace (s +:+ t) = stripWhitespace s +:+ stripWhitespace t.
Proof.
  induction s as [|c s IH]; [reflexivity|].
  change (String c s +:+ t) with (String c (s +:+ t)).
  cbn [stripWhitespace]. rewrite IH. now destruct (is_space c).
Qed.

Lemma stripWhitespace_spaces (s : string) :
  string_forall is_space s = true -> stripWhitespace s = EmptyString.
Proof.
  induction s as [|c s IH]; [reflexivity|].
  cbn [string_forall stripWhitespace].
  intros [Hc Hs]%andb_true_iff. rewrite Hc. now apply IH.
Qed.

Lemma bytes_newBuffer (d : slice) : bytes (newBuffer d) = d.
Proof. destruct d; reflexivity. Qed.

Section MoreFacts.

Context `{JSONCodec}.

(** ** What the parser accepts *)

(** White space anywhere in the input is of no account: an input and
    the same input with white space put between two of its parts are
    parsed to the same outcome. *)
Lemma ParseEncrypted_whitespace (a ws b : string) :
  string_forall is_space ws = true ->
  ParseEncrypted (a +:+ ws +:+ b) = ParseEncrypted (a +:+ b).
Proof.
  intros Hws. unfold ParseEncrypted.
  rewrite !stripWhitespace_app, (stripWhitespace_spaces ws Hws).
  reflexivity.
Qed.

Lemma decodeRecipients_nonempty (raws : list rawRecipientInfo)
    (rs : list recipientInfo) :
  raws <> [] -> decodeRecipients raws = Ok rs -> rs <> [].
Proof.
  intros Hne Hd. apply decodeRecipients_Ok in Hd.
  destruct Hd; [contradiction|discriminate].
Qed.

Lemma fromRaw_wellFormed (parsed : rawJsonWebEncryption)
    (obj : JsonWebEncryption) :
  fromRaw parsed = Ok obj -> wellFormed obj.
Proof.
  intros Hobj.
  destruct (fromRaw_Ok _ _ Hobj) as (prot & rs & Hprot & Hrs & ->).
  rewrite (fromRaw_checked parsed prot rs Hprot Hrs) in Hobj.
  destruct (forallb _ rs) eqn:Hall; [|discriminate Hobj].
  split; cbn [recipients].
  - unfold buildRecipients in Hrs.
    destruct (raw_Recipients parsed) as [|raw raws] eqn:Hraws.
    + injection Hrs as <-. discriminate.
    + now apply (decodeRecipients_nonempty (raw :: raws)).
  - apply Forall_forall. intros r Hr.
    rewrite forallb_forall in Hall.
    specialize (Hall r (proj1 (list_elem_of_In _ _) Hr)).
    now apply negb_true_iff in Hall.
Qed.

Lemma parseEncryptedCompact_wellFormed (input : string)
    (obj : JsonWebEncryption) :
  parseEncryptedCompact input = Ok obj -> wellFormed obj.
Proof.
  intros Hp.
  apply parseEncryptedCompact_Ok in Hp
    as (p0 & p1 & p2 & p3 & p4 & rp & d & k & i & c & t & Hp).
  destruct Hp as (_ & _ & _ & Hm & _ & _ & _ & _ & ->).
  split; cbn [recipients]; [discriminate|].
  constructor; [|constructor].
  unfold mergedHeaders. cbn [protected unprotected header merge].
  replace (default ∅ d ∪ ∅) with (default ∅ d); [exact Hm|].
  symmetry. unfold Header in *. apply map_union_empty.
Qed.

(** X1. Every envelope that [ParseEncrypted] returns has a recipient, and
    the merged header of each of its recipients has a non-empty [alg] and
    a non-empty [enc]. *)
Theorem ParseEncrypted_wellFormed (input : string)
    (obj : JsonWebEncryption) :
  ParseEncrypted input = Ok obj ->
  recipients obj <> []
  /\ forall r,
      In r (recipients obj) ->
      Alg (mergedHeaders obj (Some r)) <> EmptyString
      /\ Enc (mergedHeaders obj (Some r)) <> EmptyString.
Proof.
  intros Hp.
  assert (Hwf : wellFormed obj).
  { unfold ParseEncrypted in Hp.
    destruct (hasPrefixBrace (stripWhitespace input)).
    - unfold parseEncryptedFull in Hp. invert_Ok Hp.
      now apply (fromRaw_wellFormed x).
    - now apply (parseEncryptedCompact_wellFormed (stripWhitespace input)). }
  destruct Hwf as [Hne Hall]. split; [exact Hne|].
  intros r Hr. rewrite Forall_forall in Hall.
  specialize (Hall r (proj2 (list_elem_of_In _ _) Hr)).
  unfold missingAlgEnc in Hall. apply orb_false_iff in Hall as [Ha He].
  apply String.eqb_neq in Ha, He. now split.
Qed.

(** The converse of [parseEncryptedCompact_Ok]. *)
Lemma parseEncryptedCompact_run (input p0 p1 p2 p3 p4 : string)
    (rawProtected key i c t : list byte) (decoded : option Header) :
  split "." input = [p0; p1; p2; p3; p4] ->
  base64URLDecode p0 = Some rawProtected ->
  json_unmarshal_Header rawProtected = Some decoded ->
  missingAlgEnc (default ∅ decoded) = false ->
  base64URLDecode p1 = Some key ->
  base64URLDecode p2 = Some i ->
  base64URLDecode p3 = Some c ->
  base64URLDecode p4 = Some t ->
  parseEncryptedCompact input =
    Ok {| protected := Some (default ∅ decoded);
          unprotected := None;
          recipients := [ {| header := None; encryptedKey := Some key |} ];
          aad := None;
          iv := Some i;
          ciphertext := Some c;
          tag := Some t;
          original :=
            Some {| raw_Protected := newBuffer (Some rawProtected);
                    raw_Unprotected := None;
                    raw_Header := None;
                    raw_Recipients := [];
                    raw_Aad := None;
                    raw_EncryptedKey := newBuffer (Some key);
                    raw_Iv := newBuffer (Some i);
                    raw_Ciphertext := newBuffer (Some c);
                    raw_Tag := newBuffer (Some t) |} |}.
Proof.
  intros Hs H0 Hd Hm H1 H2 H3 H4. unfold parseEncryptedCompact.
  rewrite Hs. cbn [length Nat.eqb negb nth].
  rewrite H0. cbn [orErr mbind result_bind].
  rewrite Hd. cbn [orErr mbind result_bind].
  rewrite Hm, H1, H2, H3, H4. reflexivity.
Qed.

(** X2. The compact parser succeeds exactly on the inputs of five
    segments of which the first decodes to the text of a header with a
    non-empty [alg] and [enc] and the other four decode. The key, iv,
    ciphertext and tag of the envelope are then what the segments decode
    to, and are never nil: an empty segment, as the key segment of a
    direct-key message, gives an empty slice. *)
Theorem parseEncryptedCompact_succeeds (input : string) :
  ((exists obj, parseEncryptedCompact input = Ok obj)
   <-> exists p0 p1 p2 p3 p4 rawProtected decoded,
       split "." input = [p0; p1; p2; p3; p4]
       /\ base64URLDecode p0 = Some rawProtected
       /\ json_unmarshal_Header rawProtected = Some decoded
       /\ Alg (default ∅ decoded) <> EmptyString
       /\ Enc (default ∅ decoded) <> EmptyString
       /\ base64URLDecode p1 <> None
       /\ base64URLDecode p2 <> None
       /\ base64URLDecode p3 <> None
       /\ base64URLDecode p4 <> None)
  /\ (forall obj p0 p1 p2 p3 p4,
        split "." input = [p0; p1; p2; p3; p4] ->
        parseEncryptedCompact input = Ok obj ->
        recipients obj
          = [ {| header := None; encryptedKey := base64URLDecode p1 |} ]
        /\ iv obj = base64URLDecode p2
        /\ ciphertext obj = base64URLDecode p3
        /\ tag obj = base64URLDecode p4
        /\ aad obj = None
        /\ (p1 = EmptyString -> encryptedKey_of obj = Some [])).
Proof.
  split; [split|].
  - intros [obj Hobj].
    destruct (parseEncryptedCompact_Ok _ _ Hobj)
      as (p0 & p1 & p2 & p3 & p4 & rp & d & k & i & c & t & Hp).
    destruct Hp as (Hs & H0 & Hd & Hm & H1 & H2 & H3 & H4 & _).
    exists p0, p1, p2, p3, p4, rp, d.
    unfold missingAlgEnc in Hm. apply orb_false_iff in Hm as [Ha He].
    apply String.eqb_neq in Ha, He.
    rewrite H1, H2, H3, H4. repeat (split; [assumption|]).
    repeat split; discriminate.
  - intros (p0 & p1 & p2 & p3 & p4 & rp & d & Hp).
    destruct Hp as (Hs & H0 & Hd & Ha & He & H1 & H2 & H3 & H4).
    destruct (base64URLDecode p1) as [k|] eqn:E1; [|contradiction].
    destruct (base64URLDecode p2) as [i|] eqn:E2; [|contradiction].
    destruct (base64URLDecode p3) as [c|] eqn:E3; [|contradiction].
    destruct (base64URLDecode p4) as [t|] eqn:E4; [|contradiction].
    eexists.
    apply (parseEncryptedCompact_run input p0 p1 p2 p3 p4 rp k i c t d);
      try assumption.
    unfold missingAlgEnc. apply orb_false_iff.
    split; now apply String.eqb_neq.
  - intros obj p0 p1 p2 p3 p4 Hs Hobj.
    destruct (parseEncryptedCompact_Ok _ _ Hobj)
      as (q0 & q1 & q2 & q3 & q4 & rp & d & k & i & c & t & Hp).
    destruct Hp as (Hs' & _ & _ & _ & H1 & H2 & H3 & H4 & ->).
    rewrite Hs in Hs'. injection Hs' as <- <- <- <- <-.
    rewrite H1, H2, H3, H4. cbn.
    repeat (split; [reflexivity|]).
    intros ->. vm_compute in H1. now injection H1 as <-.
Qed.

(** ** What the compact serializer writes *)

Lemma CompactSerialize_Ok (obj : JsonWebEncryption) (text : string) :
  CompactSerialize obj = Ok text ->
  exists r,
    recipients obj = [r] /\ unprotected obj = None /\ header r = None
    /\ text = joinCompact
                (base64URLEncode (mustSerializeJSON (protected obj)))
                (base64URLEncode (contents (encryptedKey r)))
                (base64URLEncode (contents (iv obj)))
                (base64URLEncode (contents (ciphertext obj)))
                (base64URLEncode (contents (tag obj))).
Proof.
  unfold CompactSerialize.
  destruct (recipients obj) as [|r [|r' rs]]; cbn [length first].
  - change (1 <? 0)%nat with false. cbv iota.
    case_bool_decide; discriminate.
  - change (1 <? 1)%nat with false. cbv iota.
    case_bool_decide as Hu; [discriminate|].
    cbn [mbind result_bind].
    case_bool_decide as Hh; [discriminate|].
    intros [= <-]. exists r.
    destruct (unprotected obj); [now destruct Hu|].
    destruct (header r); [now destruct Hh|]. auto.
  - discriminate.
Qed.

(** X3. A text that [CompactSerialize] returns has exactly five segments,
    made of characters of the base64url alphabet only; it has no white
    space and does not start with a brace, so that [ParseEncrypted] hands
    it, as it is, to the compact parser. *)
Theorem CompactSerialize_text (obj : JsonWebEncryption) (text : string) :
  CompactSerialize obj = Ok text ->
  length (split "." text) = 5%nat
  /\ Forall (fun p => string_forall is_base64url p = true) (split "." text)
  /\ stripWhitespace text = text
  /\ ParseEncrypted text = parseEncryptedCompact text.
Proof.
  intros Hs.
  destruct (CompactSerialize_Ok _ _ Hs) as (r & _ & _ & _ & ->).
  assert (Hchars :
            string_forall compact_char
              (joinCompact
                 (base64URLEncode (mustSerializeJSON (protected obj)))
                 (base64URLEncode (contents (encryptedKey r)))
                 (base64URLEncode (contents (iv obj)))
                 (base64URLEncode (contents (ciphertext obj)))
                 (base64URLEncode (contents (tag obj)))) = true).
  { apply string_forall_joinCompact;
      [reflexivity|apply base64URLEncode_compact..]. }
  rewrite split_joinCompact by apply base64URLEncode_without_dot.
  split; [reflexivity|]. split.
  - repeat constructor; apply base64URLEncode_alphabet.
  - split; [now apply compact_char_not_space|].
    unfold ParseEncrypted.
    rewrite (compact_char_not_space _ Hchars).
    now rewrite (compact_char_not_brace _ Hchars).
Qed.

(** X4. The two serializers read [recipients[0]]: [FullSerialize] panics
    exactly on an envelope with no recipient; [CompactSerialize] panics
    exactly on an envelope with no recipient and no unprotected header,
    and on one with no recipient and an unprotected header it returns
    [ErrNotSupported], the test of the header coming first. *)
Theorem serializers_panic (obj : JsonWebEncryption) :
  (FullSerialize obj = Panic <-> recipients obj = [])
  /\ (CompactSerialize obj = Panic
      <-> recipients obj = [] /\ unprotected obj = None)
  /\ (recipients obj = [] -> unprotected obj <> None ->
      CompactSerialize obj = Err ErrNotSupported).
Proof.
  split; [|split].
  - unfold FullSerialize.
    destruct (recipients obj) as [|r0 rs] eqn:Hrs.
    + unfold fullRaw. rewrite Hrs. cbn. tauto.
    + rewrite (fullRaw_Ok obj r0 rs Hrs). cbn. split; discriminate.
  - unfold CompactSerialize.
    destruct (recipients obj) as [|r [|r' rs]]; cbn [length first].
    + change (1 <? 0)%nat with false. cbv iota.
      case_bool_decide as Hu; cbn.
      * split; [discriminate|]. intros [_ Hn]. contradiction.
      * split; [|reflexivity]. intros _. split; [reflexivity|].
        destruct (unprotected obj); [now destruct Hu|reflexivity].
    + change (1 <? 1)%nat with false. cbv iota.
      case_bool_decide; [split; [discriminate|intros [[=] _]]|].
      cbn [mbind result_bind].
      case_bool_decide; split; try discriminate; intros [[=] _].
    + change (1 <? S (S (length rs)))%nat with true. cbv iota.
      split; [discriminate|intros [[=] _]].
  - intros Hrs Hu. unfold CompactSerialize. rewrite Hrs.
    change (1 <? length [])%nat with false. cbv iota.
    now rewrite bool_decide_eq_true_2.
Qed.

(** ** Authenticated data across the compact form *)

Lemma list_byte_of_string_inj (s t : string) :
  list_byte_of_string s = list_byte_of_string t -> s = t.
Proof.
  intros Heq. apply (f_equal string_of_list_byte) in Heq.
  now rewrite !string_of_list_byte_of_string in Heq.
Qed.

Lemma computeAuthData_dot (obj : JsonWebEncryption) (a : list byte) :
  aad obj = Some a -> In (byte_of_ascii ".") (computeAuthData obj).
Proof.
  intros Ha. rewrite computeAuthData_eq, Ha. cbn [aadSuffix].
  apply in_or_app. right. now left.
Qed.

(** X5. The compact form has no place for [aad], and [CompactSerialize]
    neither writes it nor refuses an envelope that has it. So for an
    envelope built by hand that is written to compact text, the reader of
    the text finds no [aad], and computes the same authenticated data as
    the writer exactly when the writer had no [aad]. *)
Theorem compact_authdata (obj : JsonWebEncryption) (text : string) :
  CompactSerialize obj = Ok text ->
  original obj = None ->
  missingAlgEnc (default ∅ (protected obj)) = false ->
  json_unmarshal_Header (mustSerializeJSON (protected obj))
    = Some (protected obj) ->
  exists obj',
    ParseEncrypted text = Ok obj'
    /\ aad obj' = None
    /\ GetAuthData obj' = None
    /\ (computeAuthData obj' = computeAuthData obj <-> aad obj = None).
Proof.
  intros Hs Ho Hm Hcodec.
  destruct (CompactSerialize_Ok _ _ Hs) as (r & _ & _ & _ & ->).
  eexists. split;
    [exact (parseEncryptedCompact_joinCompact _ _ _ _ _ _ Hcodec Hm)|].
  split; [reflexivity|]. split; [reflexivity|].
  match goal with
  | |- computeAuthData ?o = _ <-> _ =>
      assert (Hread : computeAuthData o =
                list_byte_of_string
                  (base64URLEncode (mustSerializeJSON (protected obj))))
  end.
  { rewrite computeAuthData_eq. unfold protectedBytes. cbn.
    now rewrite app_nil_r. }
  rewrite Hread. split.
  - intros Heq. destruct (aad obj) as [a|] eqn:Ha; [|reflexivity].
    exfalso.
    apply (bytes_without_dot
             (base64URLEncode (mustSerializeJSON (protected obj)))
             (base64URLEncode_without_dot _)).
    rewrite Heq. now apply (computeAuthData_dot obj a).
  - intros Ha. rewrite computeAuthData_eq, Ha. unfold protectedBytes.
    rewrite Ho. cbn [aadSuffix]. now rewrite app_nil_r.
Qed.

(** X6. The authenticated data of an envelope read from compact text are
    the base64url text of the bytes that the first segment decodes to.
    They are the first segment itself exactly when that segment is the
    canonical base64url text of its bytes. *)
Theorem compact_authdata_segment (input : string)
    (obj : JsonWebEncryption) (p0 : string) (rest : list string) :
  parseEncryptedCompact input = Ok obj ->
  split "." input = p0 :: rest ->
  exists rawProtected,
    base64URLDecode p0 = Some rawProtected
    /\ computeAuthData obj
       = list_byte_of_string (base64URLEncode rawProtected)
    /\ (computeAuthData obj = list_byte_of_string p0
        <-> p0 = base64URLEncode rawProtected).
Proof.
  intros Hobj Hs.
  destruct (parseEncryptedCompact_Ok _ _ Hobj)
    as (q0 & q1 & q2 & q3 & q4 & rp & d & k & i & c & t & Hp).
  destruct Hp as (Hs' & H0 & _ & _ & _ & _ & _ & _ & ->).
  rewrite Hs in Hs'. injection Hs' as -> _.
  exists rp. split; [exact H0|].
  assert (Hread : forall C : JSONCodec,
             @computeAuthData C
               {| protected := Some (default ∅ d);
                  unprotected := None;
                  recipients :=
                    [ {| header := None; encryptedKey := Some k |} ];
                  aad := None;
                  iv := Some i;
                  ciphertext := Some c;
                  tag := Some t;
                  original :=
                    Some {| raw_Protected := newBuffer (Some rp);
                            raw_Unprotected := None;
                            raw_Header := None;
                            raw_Recipients := [];
                            raw_Aad := None;
                            raw_EncryptedKey := newBuffer (Some k);
                            raw_Iv := newBuffer (Some i);
                            raw_Ciphertext := newBuffer (Some c);
                            raw_Tag := newBuffer (Some t) |} |}
             = list_byte_of_string (base64URLEncode rp)).
  { intros C. reflexivity. }
  rewrite Hread. split; [reflexivity|]. split.
  - intros Heq. symmetry. now apply list_byte_of_string_inj.
  - now intros ->.
Qed.

(** ** What the full serializer writes *)

Lemma assoc_app (key : string) (xs ys : list (string * json)) :
  assoc key (xs ++ ys) =
    match assoc key xs with
    | Some v => Some v
    | None => assoc key ys
    end.
Proof.
  induction xs as [|[k v] xs IH]; [reflexivity|].
  cbn [assoc app]. now destruct (String.eqb k key).
Qed.

Lemma assoc_ptr {A} `{ToJSON A} (key name : string) (p : option A) :
  assoc key (omitempty_ptr name p) =
    if String.eqb name key then option_map to_json p else None.
Proof. destruct p; cbn; now destruct (String.eqb name key). Qed.

Lemma assoc_slice {A} `{ToJSON A} (key name : string) (l : list A) :
  assoc key (omitempty_slice name l) =
    if String.eqb name key
    then match l with
         | [] => None
         | _ => Some (JArray (map to_json l))
         end
    else None.
Proof. destruct l; cbn; now destruct (String.eqb name key). Qed.

(** Looks a field up in the JSON object of a raw struct. *)
Ltac raw_field :=
  unfold to_json at 1, rawJsonWebEncryption_to_json, json_field;
  cbn [raw_Protected raw_Unprotected raw_Header raw_Recipients raw_Aad
       raw_EncryptedKey raw_Iv raw_Ciphertext raw_Tag];
  rewrite !assoc_app, !assoc_ptr, assoc_slice;
  cbv [String.eqb Ascii.eqb Bool.eqb].

Lemma to_json_newBuffer (d : slice) :
  option_map to_json (newBuffer d) = buffer_text d.
Proof. destruct d; reflexivity. Qed.

(** X7. With exactly one recipient, [FullSerialize] writes the flattened
    shape: no [recipients] field, the header of the recipient as the
    top-level [header] when it has one, and the base64url text of its key
    as the top-level [encrypted_key] when the key is not nil. *)
Theorem FullSerialize_flattened (obj : JsonWebEncryption)
    (r : recipientInfo) :
  recipients obj = [r] ->
  exists raw,
    FullSerialize obj = Ok (string_of_list_byte (mustSerializeJSON raw))
    /\ json_field "recipients" (to_json raw) = None
    /\ json_field "header" (to_json raw) = option_map to_json (header r)
    /\ json_field "encrypted_key" (to_json raw)
       = buffer_text (encryptedKey r).
Proof.
  intros Hrs. eexists. unfold FullSerialize.
  rewrite (fullRaw_Ok obj r [] Hrs). cbn [mbind result_bind].
  split; [reflexivity|]. split; [|split].
  - raw_field. reflexivity.
  - raw_field. now destruct (header r).
  - raw_field. rewrite to_json_newBuffer.
    now destruct (encryptedKey r).
Qed.

(** X8. Whatever the number of recipients, [FullSerialize] writes
    [protected], the base64url text of the serialized protected header,
    and writes each of [unprotected], [aad], [iv], [ciphertext] and [tag]
    exactly when the envelope has it (a nil slice is left out, an empty
    one is written as empty text), the byte fields as base64url text. *)
Theorem FullSerialize_fields (obj : JsonWebEncryption)
    (r0 : recipientInfo) (rs : list recipientInfo) :
  recipients obj = r0 :: rs ->
  exists raw,
    FullSerialize obj = Ok (string_of_list_byte (mustSerializeJSON raw))
    /\ json_field "protected" (to_json raw)
       = Some (JString (base64URLEncode (mustSerializeJSON (protected obj))))
    /\ json_field "unprotected" (to_json raw)
       = option_map to_json (unprotected obj)
    /\ json_field "aad" (to_json raw) = buffer_text (aad obj)
    /\ json_field "iv" (to_json raw) = buffer_text (iv obj)
    /\ json_field "ciphertext" (to_json raw) = buffer_text (ciphertext obj)
    /\ json_field "tag" (to_json raw) = buffer_text (tag obj).
Proof.
  intros Hrs. eexists. unfold FullSerialize.
  rewrite (fullRaw_Ok obj r0 rs Hrs). cbn [mbind result_bind].
  split; [reflexivity|].
  split; [raw_field; reflexivity|].
  split; [raw_field; now destruct (unprotected obj)|].
  repeat split; raw_field; rewrite !to_json_newBuffer;
    first [ reflexivity
          | match goal with
            | |- match ?x with _ => _ end = _ => now destruct x
            end ].
Qed.

(** ** Round trip through the full form *)

Lemma decodeProtected_written (raw : rawJsonWebEncryption)
    (hdr : list byte) (decoded : option Header) :
  raw_Protected raw = newBuffer (Some hdr) ->
  hdr <> [] ->
  json_unmarshal_Header hdr = Some decoded ->
  decodeProtected raw = Ok decoded.
Proof.
  intros Hp Hne Hd. unfold decodeProtected. rewrite Hp.
  cbn [newBuffer bytes buf len contents].
  rewrite bool_decide_eq_true_2 by discriminate.
  destruct hdr; [contradiction|]. cbn. now rewrite Hd.
Qed.

Lemma decodeRecipients_written (rs : list recipientInfo) :
  decodeRecipients
    (map (fun r =>
            {| rri_Header := header r;
               rri_EncryptedKey :=
                 base64URLEncode (contents (encryptedKey r)) |}) rs)
  = Ok (map (fun r =>
               {| header := header r;
                  encryptedKey := Some (contents (encryptedKey r)) |}) rs).
Proof.
  induction rs as [|r rs IH]; [reflexivity|].
  cbn [map decodeRecipients rri_Header rri_EncryptedKey].
  rewrite base64URLDecode_Encode. cbn [orErr mbind result_bind].
  rewrite IH. reflexivity.
Qed.

Lemma Ok_inj {A} (a b : A) : Ok a = Ok b -> a = b.
Proof. now intros [= ->]. Qed.

Lemma buildRecipients_array (parsed : rawJsonWebEncryption) :
  raw_Recipients parsed <> [] ->
  buildRecipients parsed = decodeRecipients (raw_Recipients parsed).
Proof.
  unfold buildRecipients.
  destruct (raw_Recipients parsed); [contradiction|reflexivity].
Qed.

Lemma written_same_headers (rs : list recipientInfo) :
  Forall2 (fun r r' =>
             header r' = header r
             /\ contents (encryptedKey r') = contents (encryptedKey r))
    rs
    (map (fun r =>
            {| header := header r;
               encryptedKey := Some (contents (encryptedKey r)) |}) rs).
Proof. induction rs; constructor; [now split|assumption]. Qed.

Lemma check_same_headers (prot unprot : option Header)
    (rs rs' : list recipientInfo) :
  Forall2 (fun r r' =>
             header r' = header r
             /\ contents (encryptedKey r') = contents (encryptedKey r))
    rs rs' ->
  Forall (fun r => missingAlgEnc (mergedOf prot unprot r) = false) rs ->
  forallb (fun r => negb (missingAlgEnc (mergedOf prot unprot r))) rs'
  = true.
Proof.
  induction 1 as [|r r' rs rs' [Hh _] _ IH]; [reflexivity|].
  intros Hall. apply Forall_cons in Hall as [Hr Hall].
  cbn [forallb]. rewrite (IH Hall), andb_true_r.
  unfold mergedOf in Hr |- *. rewrite Hh, Hr. reflexivity.
Qed.

(** X9. When the text that [FullSerialize] writes for an envelope of the
    data model holds no white space, [ParseEncrypted] reads it back as an
    envelope with the same protected and unprotected headers, the same
    [aad], iv, ciphertext and tag, nil where they were nil, and
    recipients with the same headers and the same key bytes; a sole
    recipient is read back as it was. The condition on white space is
    needed: [ParseEncrypted] strips it from the whole input, also inside
    the strings of the JSON text. The JSON encoder is taken to write text
    that starts with a brace, and the decoders to read back, from that
    text, the raw struct and the header that were written. *)
Theorem full_roundtrip (obj : JsonWebEncryption)
    (raw : rawJsonWebEncryption) (text : string) :
  fullRaw obj = Ok raw ->
  FullSerialize obj = Ok text ->
  wellFormed obj ->
  mustSerializeJSON (protected obj) <> [] ->
  json_unmarshal_Header (mustSerializeJSON (protected obj))
    = Some (protected obj) ->
  stripWhitespace text = text ->
  hasPrefixBrace text = true ->
  json_unmarshal_raw (list_byte_of_string text) = Some raw ->
  exists obj',
    ParseEncrypted text = Ok obj'
    /\ protected obj' = protected obj
    /\ unprotected obj' = unprotected obj
    /\ aad obj' = aad obj
    /\ iv obj' = iv obj
    /\ ciphertext obj' = ciphertext obj
    /\ tag obj' = tag obj
    /\ Forall2 (fun r r' =>
                  header r' = header r
                  /\ contents (encryptedKey r') = contents (encryptedKey r))
         (recipients obj) (recipients obj')
    /\ (forall r, recipients obj = [r] -> recipients obj' = [r])
    /\ original obj' = Some raw.
Proof.
  intros Hraw _ [_ Hwf] Hne Hhdr Hstrip Hbrace Hcodec.
  destruct (recipients obj) as [|r0 rs] eqn:Hrs.
  { unfold fullRaw in Hraw. rewrite Hrs in Hraw. discriminate Hraw. }
  rewrite (fullRaw_Ok obj r0 rs Hrs) in Hraw. apply Ok_inj in Hraw.
  assert (Hp : raw_Protected raw
               = newBuffer (Some (mustSerializeJSON (protected obj))))
    by now subst raw.
  assert (Hun : raw_Unprotected raw = unprotected obj) by now subst raw.
  assert (Hfields :
            bytes (raw_Aad raw) = aad obj /\ bytes (raw_Iv raw) = iv obj
            /\ bytes (raw_Ciphertext raw) = ciphertext obj
            /\ bytes (raw_Tag raw) = tag obj).
  { subst raw. cbn [raw_Aad raw_Iv raw_Ciphertext raw_Tag].
    now rewrite !bytes_newBuffer. }
  assert (Hbuild :
            exists rs',
              buildRecipients raw = Ok rs'
              /\ Forall2 (fun r r' =>
                            header r' = header r
                            /\ contents (encryptedKey r')
                               = contents (encryptedKey r))
                   (r0 :: rs) rs'
              /\ (rs = [] -> rs' = [r0])).
  { destruct rs as [|r1 rs].
    - subst raw. unfold buildRecipients.
      cbn [raw_Recipients raw_Header raw_EncryptedKey].
      rewrite bytes_newBuffer. exists [r0]. split; [now destruct r0|].
      split; [|reflexivity]. repeat constructor.
    - rewrite buildRecipients_array by (subst raw; discriminate).
      subst raw. cbn [raw_Recipients].
      rewrite decodeRecipients_written.
      eexists. split; [reflexivity|]. split; [|discriminate].
      apply written_same_headers. }
  clear Hraw. destruct Hbuild as (rs' & Hbuild & Hsame & Hone).
  assert (Hprot : decodeProtected raw = Ok (protected obj)).
  { now apply (decodeProtected_written raw
                 (mustSerializeJSON (protected obj))). }
  pose proof (check_same_headers (protected obj) (raw_Unprotected raw)
                _ _ Hsame) as Hall.
  rewrite Hun in Hall. specialize (Hall Hwf). rewrite <- Hun in Hall.
  destruct Hfields as (Ha & Hi & Hc & Ht).
  eexists. split.
  - unfold ParseEncrypted. rewrite Hstrip, Hbrace.
    unfold parseEncryptedFull.
    rewrite Hcodec. cbn [orErr mbind result_bind].
    rewrite (fromRaw_checked raw _ _ Hprot Hbuild), Hall. reflexivity.
  - cbn [protected unprotected aad iv ciphertext tag recipients original].
    repeat (split; [assumption || reflexivity|]).
    split; [|reflexivity].
    intros r [= -> ->]. now apply Hone.
Qed.

(** ** What is written back of a parsed message *)

Lemma ParseEncrypted_recipients (input : string) (obj : JsonWebEncryption) :
  ParseEncrypted input = Ok obj -> recipients obj <> [].
Proof.
  unfold ParseEncrypted. destruct (hasPrefixBrace (stripWhitespace input)).
  - unfold parseEncryptedFull. intros Hp. invert_Ok Hp.
    now destruct (fromRaw_wellFormed _ _ Hp).
  - intros Hp. now destruct (parseEncryptedCompact_wellFormed _ _ Hp).
Qed.

(** X10. No serializer panics on an envelope that [ParseEncrypted]
    returned: [FullSerialize] returns a text, and [CompactSerialize] a
    text or [ErrNotSupported]. *)
Theorem ParseEncrypted_serializable (input : string)
    (obj : JsonWebEncryption) :
  ParseEncrypted input = Ok obj ->
  (exists text, FullSerialize obj = Ok text)
  /\ ((exists text, CompactSerialize obj = Ok text)
      \/ CompactSerialize obj = Err ErrNotSupported).
Proof.
  intros Hp. pose proof (ParseEncrypted_recipients _ _ Hp) as Hne.
  destruct (recipients obj) as [|r0 rs] eqn:Hrs; [contradiction|].
  split.
  - unfold FullSerialize. rewrite (fullRaw_Ok obj r0 rs Hrs).
    cbn. eauto.
  - unfold CompactSerialize. rewrite Hrs. cbn [length first].
    destruct (1 <? S (length rs))%nat; [now right|].
    case_bool_decide; [now right|]. cbn [mbind result_bind].
    case_bool_decide; [now right|]. left. eauto.
Qed.

(** X11. A full-JSON message that is parsed and written back by
    [FullSerialize] keeps its unprotected header and the bytes of its
    [aad], iv, ciphertext and tag. Without a [recipients] array it keeps
    its top-level header and key; a [recipients] array of one entry is
    written back in the flattened shape, the header and the key of the
    entry at the top level; an array of more entries is written back as
    an array of entries with the same headers and keys that decode to the
    same bytes. *)
Theorem parse_then_fullRaw (input : string) (parsed : rawJsonWebEncryption)
    (obj : JsonWebEncryption) :
  json_unmarshal_raw (list_byte_of_string input) = Some parsed ->
  parseEncryptedFull input = Ok obj ->
  exists raw,
    fullRaw obj = Ok raw
    /\ raw_Unprotected raw = raw_Unprotected parsed
    /\ bytes (raw_Aad raw) = bytes (raw_Aad parsed)
    /\ bytes (raw_Iv raw) = bytes (raw_Iv parsed)
    /\ bytes (raw_Ciphertext raw) = bytes (raw_Ciphertext parsed)
    /\ bytes (raw_Tag raw) = bytes (raw_Tag parsed)
    /\ (raw_Recipients parsed = [] ->
        raw_Recipients raw = []
        /\ raw_Header raw = raw_Header parsed
        /\ bytes (raw_EncryptedKey raw) = bytes (raw_EncryptedKey parsed))
    /\ (forall entry,
          raw_Recipients parsed = [entry] ->
          raw_Recipients raw = []
          /\ raw_Header raw = rri_Header entry
          /\ bytes (raw_EncryptedKey raw)
             = base64URLDecode (rri_EncryptedKey entry))
    /\ ((1 < length (raw_Recipients parsed))%nat ->
        Forall2 (fun entry entry' =>
                   rri_Header entry' = rri_Header entry
                   /\ base64URLDecode (rri_EncryptedKey entry')
                      = base64URLDecode (rri_EncryptedKey entry))
          (raw_Recipients parsed) (raw_Recipients raw)).
Proof.
  intros Hraw Hobj. unfold parseEncryptedFull in Hobj. rewrite Hraw in Hobj.
  cbn [orErr mbind result_bind] in Hobj.
  destruct (fromRaw_Ok _ _ Hobj) as (prot & rs & _ & Hrs & ->).
  destruct (raw_Recipients parsed) as [|e0 [|e1 es]] eqn:Hes.
  - (* no array *)
    unfold buildRecipients in Hrs. rewrite Hes in Hrs. apply Ok_inj in Hrs.
    subst rs. eexists. split; [now apply fullRaw_Ok|].
    cbn. rewrite !bytes_newBuffer.
    repeat (split; [reflexivity|]).
    split; [auto|]. split; [discriminate|]. intros Hlt. inversion Hlt.
  - (* an array of one entry *)
    rewrite buildRecipients_array in Hrs by (rewrite Hes; discriminate).
    rewrite Hes in Hrs. cbn [decodeRecipients] in Hrs. invert_Ok Hrs.
    apply Ok_inj in Hx0. subst x0.
    cbn [mbind result_bind] in Hrs. apply Ok_inj in Hrs. subst rs.
    eexists. split; [now apply fullRaw_Ok|].
    cbn. rewrite !bytes_newBuffer.
    repeat (split; [reflexivity|]).
    split; [discriminate|]. split; [|intros Hlt; lia].
    intros entry [= <-]. now rewrite Hx.
  - (* an array of several entries *)
    rewrite buildRecipients_array in Hrs by (rewrite Hes; discriminate).
    rewrite Hes in Hrs. apply decodeRecipients_Ok in Hrs.
    pose proof (Forall2_length _ _ _ Hrs) as Hlen.
    destruct rs as [|r0 [|r1 rs]]; try discriminate Hlen.
    eexists. split; [now apply fullRaw_Ok|].
    cbn [raw_Unprotected raw_Aad raw_Iv raw_Ciphertext raw_Tag
         raw_Recipients unprotected aad iv ciphertext tag].
    rewrite !bytes_newBuffer.
    repeat (split; [reflexivity|]).
    split; [discriminate|]. split; [discriminate|]. intros _.
    revert Hrs. generalize (r0 :: r1 :: rs) (e0 :: e1 :: es).
    induction 1 as [|e r l l' (Hh & k & Hk & Hr) _ IH];
      cbn [map]; constructor; [|exact IH].
    cbn [rri_Header rri_EncryptedKey]. split; [exact Hh|].
    now rewrite Hr, base64URLDecode_Encode, Hk.
Qed.

(** ** Errors of the full parser *)

Lemma decodeRecipients_Err (raws : list rawRecipientInfo) :
  Exists (fun entry => base64URLDecode (rri_EncryptedKey entry) = None) raws ->
  decodeRecipients raws = Err Base64Error.
Proof.
  induction raws as [|e raws IH]; intros Hex; [inversion Hex|].
  cbn [decodeRecipients].
  destruct (base64URLDecode (rri_EncryptedKey e)) as [k|] eqn:Hk;
    [|reflexivity].
  cbn [orErr mbind result_bind].
  apply Exists_cons in Hex as [Hbad|Hex]; [congruence|].
  now rewrite (IH Hex).
Qed.

(** X12. The full parser reports the first thing that is wrong, in this
    order: a protected header that is not empty and does not decode gives
    [MalformedHeader], whatever the recipients are; then a recipient
    entry whose key is not base64url text gives [Base64Error], whatever
    the headers hold. A message without a [recipients] array never gives
    [Base64Error]. *)
Theorem parseEncryptedFull_errors (input : string)
    (parsed : rawJsonWebEncryption) :
  json_unmarshal_raw (list_byte_of_string input) = Some parsed ->
  (contents (bytes (raw_Protected parsed)) <> [] ->
   json_unmarshal_Header (contents (bytes (raw_Protected parsed))) = None ->
   parseEncryptedFull input = Err MalformedHeader)
  /\ (forall prot,
        decodeProtected parsed = Ok prot ->
        Exists (fun entry =>
                  base64URLDecode (rri_EncryptedKey entry) = None)
          (raw_Recipients parsed) ->
        parseEncryptedFull input = Err Base64Error)
  /\ (raw_Recipients parsed = [] ->
      parseEncryptedFull input <> Err Base64Error).
Proof.
  intros Hraw. unfold parseEncryptedFull. rewrite Hraw.
  cbn [orErr mbind result_bind]. split; [|split].
  - intros Hne Hbad. unfold fromRaw, decodeProtected.
    destruct (raw_Protected parsed) as [b|]; [|now destruct Hne].
    rewrite bool_decide_eq_true_2 by discriminate.
    unfold len. cbn [bytes] in *.
    destruct (contents (buf b)) as [|x l] eqn:Hc; [contradiction|].
    cbn [length Nat.ltb Nat.leb andb]. now rewrite Hbad.
  - intros prot Hprot Hex. unfold fromRaw. rewrite Hprot.
    cbn [mbind result_bind].
    rewrite buildRecipients_array by (intros Hnil; rewrite Hnil in Hex;
                                      inversion Hex).
    now rewrite (decodeRecipients_Err _ Hex).
  - intros Hnil. unfold fromRaw.
    destruct (decodeProtected parsed) as [prot|e|] eqn:Hprot;
      cbn [mbind result_bind].
    + unfold buildRecipients. rewrite Hnil. cbn [mbind result_bind].
      rewrite checkRecipients_spec.
      destruct (forallb _ _); discriminate.
    + unfold decodeProtected in Hprot.
      destruct (_ && _) in Hprot; [|discriminate Hprot].
      destruct (json_unmarshal_Header _) in Hprot; [discriminate Hprot|].
      injection Hprot as <-. discriminate.
    + discriminate.
Qed.

(** X13. A [protected] field that is absent, or present and empty, is
    not decoded: the parse never fails with [MalformedHeader], and the
    envelope it returns has a nil protected header. *)
Theorem parseEncryptedFull_no_protected (input : string)
    (parsed : rawJsonWebEncryption) :
  json_unmarshal_raw (list_byte_of_string input) = Some parsed ->
  contents (bytes (raw_Protected parsed)) = [] ->
  parseEncryptedFull input <> Err MalformedHeader
  /\ forall obj, parseEncryptedFull input = Ok obj -> protected obj = None.
Proof.
  intros Hraw Hempty.
  assert (Hprot : decodeProtected parsed = Ok None).
  { unfold decodeProtected, len. rewrite Hempty.
    now rewrite andb_false_r. }
  unfold parseEncryptedFull. rewrite Hraw. cbn [orErr mbind result_bind].
  split.
  - unfold fromRaw. rewrite Hprot. cbn [mbind result_bind].
    destruct (buildRecipients parsed) as [rs|e|] eqn:Hrs;
      cbn [mbind result_bind].
    + rewrite checkRecipients_spec. destruct (forallb _ _); discriminate.
    + unfold buildRecipients in Hrs.
      destruct (raw_Recipients parsed) as [|e0 es]; [discriminate Hrs|].
      intros [= ->].
      assert (Hno : forall l, decodeRecipients l <> Err MalformedHeader).
      { induction l as [|x l IH]; [discriminate|]. cbn [decodeRecipients].
        destruct (base64URLDecode _); [|discriminate].
        cbn [orErr mbind result_bind].
        destruct (decodeRecipients l) as [t|e'|]; cbn; try discriminate.
        intros [= ->]. now apply IH. }
      now apply (Hno (e0 :: es)).
    + discriminate.
  - intros obj Hobj.
    destruct (fromRaw_Ok _ _ Hobj) as (prot & rs & Hp & _ & ->).
    rewrite Hprot in Hp. now injection Hp as <-.
Qed.

(** ** Writing a parsed compact message again *)

(** X14. An envelope read from compact text is written by
    [CompactSerialize] to a text that is read back as an envelope with
    the same protected header, recipients, iv, ciphertext and tag, and
    again no unprotected header and no [aad]. The JSON decoder is taken
    to read back the header that the encoder wrote. *)
Theorem compact_reparse (input : string) (obj : JsonWebEncryption) :
  parseEncryptedCompact input = Ok obj ->
  json_unmarshal_Header (mustSerializeJSON (protected obj))
    = Some (protected obj) ->
  exists text obj',
    CompactSerialize obj = Ok text
    /\ ParseEncrypted text = Ok obj'
    /\ protected obj' = protected obj
    /\ unprotected obj' = None
    /\ recipients obj' = recipients obj
    /\ aad obj' = None
    /\ iv obj' = iv obj
    /\ ciphertext obj' = ciphertext obj
    /\ tag obj' = tag obj.
Proof.
  intros Hobj Hcodec.
  destruct (parseEncryptedCompact_Ok _ _ Hobj)
    as (p0 & p1 & p2 & p3 & p4 & rp & d & k & i & c & t & Hp).
  destruct Hp as (_ & _ & _ & Hm & _ & _ & _ & _ & ->).
  cbn [protected] in Hcodec.
  eexists _, _. split; [now apply CompactSerialize_one|].
  split.
  - cbn [protected encryptedKey iv ciphertext tag contents].
    now apply (parseEncryptedCompact_joinCompact _ _ _ _ _ _ Hcodec).
  - cbn. repeat split.
Qed.

End MoreFacts.

(** ** The further properties at the sample messages *)

Lemma ParseEncrypted_wellFormed_witness :
  recipients Sample.parsed_spaced <> []
  /\ forall r,
      In r (recipients Sample.parsed_spaced) ->
      Alg (mergedHeaders Sample.parsed_spaced (Some r)) <> EmptyString
      /\ Enc (mergedHeaders Sample.parsed_spaced (Some r)) <> EmptyString.
Proof.
  apply (@ParseEncrypted_wellFormed RefJSON.codec Sample.compact_spaced).
  vm_compute. reflexivity.
Defined.

Lemma parseEncryptedCompact_succeeds_witness :
  exists obj,
    @parseEncryptedCompact RefJSON.codec Sample.compact_dir = Ok obj
    /\ encryptedKey_of obj = Some []
    /\ iv obj = Sample.text "abc".
Proof.
  assert (Hs : split "." Sample.compact_dir
               = [ "eyJhbGciOiJkaXIiLCJlbmMiOiJBMTI4R0NNIn0"; "";
                   "YWJj"; "ZGVm"; "Z2hp" ]) by reflexivity.
  destruct (proj2 (proj1 (@parseEncryptedCompact_succeeds RefJSON.codec
                            Sample.compact_dir)))
    as [obj Hobj].
  { exists "eyJhbGciOiJkaXIiLCJlbmMiOiJBMTI4R0NNIn0", "", "YWJj", "ZGVm",
      "Z2hp", (list_byte_of_string Sample.plain_header),
      (Some Sample.dir_header).
    split; [exact Hs|]. split; [vm_compute; reflexivity|].
    split; [vm_compute; reflexivity|].
    repeat split; vm_compute; discriminate. }
  exists obj. split; [exact Hobj|].
  destruct (proj2 (@parseEncryptedCompact_succeeds RefJSON.codec
                     Sample.compact_dir) obj _ _ _ _ _ Hs Hobj)
    as (_ & Hi & _ & _ & _ & Hk).
  split; [exact (Hk eq_refl)|]. rewrite Hi. vm_compute. reflexivity.
Defined.

Lemma CompactSerialize_text_witness :
  exists text,
    @CompactSerialize RefJSON.codec Sample.single = Ok text
    /\ length (split "." text) = 5%nat
    /\ @ParseEncrypted RefJSON.codec text
       = @parseEncryptedCompact RefJSON.codec text.
Proof.
  eexists. split; [vm_compute; reflexivity|].
  destruct (@CompactSerialize_text RefJSON.codec Sample.single _
              ltac:(vm_compute; reflexivity)) as (Hlen & _ & _ & Hp).
  split; [exact Hlen|exact Hp].
Defined.

Lemma serializers_panic_witness :
  @FullSerialize RefJSON.codec Sample2.no_recipient = Panic
  /\ @CompactSerialize RefJSON.codec Sample2.no_recipient = Panic.
Proof.
  destruct (@serializers_panic RefJSON.codec Sample2.no_recipient)
    as (Hfull & Hcompact & _).
  split; [now apply Hfull|now apply Hcompact].
Defined.

Lemma compact_authdata_witness :
  exists text obj',
    @CompactSerialize RefJSON.codec Sample2.with_aad = Ok text
    /\ @ParseEncrypted RefJSON.codec text = Ok obj'
    /\ aad obj' = None
    /\ @computeAuthData RefJSON.codec obj'
       <> @computeAuthData RefJSON.codec Sample2.with_aad.
Proof.
  assert (Hs : @CompactSerialize RefJSON.codec Sample2.with_aad
               = Ok "eyJlbmMiOiJBMTI4R0NNIiwiYWxnIjoiZGlyIn0..YWJj.ZGVm.Z2hp")
    by (vm_compute; reflexivity).
  destruct (@compact_authdata RefJSON.codec Sample2.with_aad _ Hs eq_refl)
    as (obj' & Hp & Ha & _ & Hiff).
  - vm_compute. reflexivity.
  - vm_compute. reflexivity.
  - eexists _, obj'. split; [exact Hs|]. split; [exact Hp|].
    split; [exact Ha|]. intros Heq. apply Hiff in Heq. discriminate Heq.
Defined.

Lemma compact_authdata_segment_witness :
  exists obj,
    @parseEncryptedCompact RefJSON.codec Sample2.compact_loose = Ok obj
    /\ @computeAuthData RefJSON.codec obj
       = list_byte_of_string "eyJhbGciOiJkaXIiLCJlbmMiOiJBMTI4R0NNIn0"
    /\ @computeAuthData RefJSON.codec obj
       <> list_byte_of_string "eyJhbGciOiJkaXIiLCJlbmMiOiJBMTI4R0NNIn1".
Proof.
  destruct (@parseEncryptedCompact RefJSON.codec Sample2.compact_loose)
    as [obj| |] eqn:Hobj; [|vm_compute in Hobj; discriminate Hobj..].
  exists obj. split; [reflexivity|].
  destruct (@compact_authdata_segment RefJSON.codec Sample2.compact_loose
              obj "eyJhbGciOiJkaXIiLCJlbmMiOiJBMTI4R0NNIn1"
              [""; "YWJj"; "ZGVm"; "Z2hp"] Hobj eq_refl)
    as (rp & Hrp & Hauth & Hiff).
  vm_compute in Hrp. injection Hrp as <-.
  split.
  - rewrite Hauth. vm_compute. reflexivity.
  - intros Heq. apply Hiff in Heq. vm_compute in Heq. discriminate Heq.
Defined.

Lemma FullSerialize_flattened_witness :
  exists raw,
    @FullSerialize RefJSON.codec Sample.single
      = Ok (string_of_list_byte (@mustSerializeJSON RefJSON.codec _ _ raw))
    /\ json_field "recipients" (to_json raw) = None
    /\ json_field "header" (to_json raw) = None
    /\ json_field "encrypted_key" (to_json raw) = None.
Proof.
  exact (@FullSerialize_flattened RefJSON.codec Sample.single _ eq_refl).
Defined.

Lemma FullSerialize_fields_witness :
  exists raw,
    @FullSerialize RefJSON.codec Sample.pair
      = Ok (string_of_list_byte (@mustSerializeJSON RefJSON.codec _ _ raw))
    /\ json_field "aad" (to_json raw) = None
    /\ json_field "iv" (to_json raw) = Some (JString "YWJj").
Proof.
  destruct (@FullSerialize_fields RefJSON.codec Sample.pair _ _ eq_refl)
    as (raw & Hs & _ & _ & Ha & Hi & _).
  exists raw. split; [exact Hs|]. split; [exact Ha|exact Hi].
Defined.

Lemma full_roundtrip_witness :
  exists text obj',
    @FullSerialize RefJSON.codec Sample.pair = Ok text
    /\ stripWhitespace text = text
    /\ @ParseEncrypted RefJSON.codec text = Ok obj'
    /\ protected obj' = protected Sample.pair
    /\ iv obj' = iv Sample.pair
    /\ Forall2 (fun r r' =>
                  header r' = header r
                  /\ contents (encryptedKey r') = contents (encryptedKey r))
         (recipients Sample.pair) (recipients obj').
Proof.
  destruct (@fullRaw RefJSON.codec Sample.pair) as [raw| |] eqn:Hraw;
    [|vm_compute in Hraw; discriminate Hraw..].
  destruct (@FullSerialize RefJSON.codec Sample.pair) as [text| |] eqn:Htext;
    [|vm_compute in Htext; discriminate Htext..].
  assert (Hwf : wellFormed Sample.pair).
  { split; [discriminate|].
    repeat (constructor; [vm_compute; reflexivity|]). constructor. }
  assert (Hstrip : stripWhitespace text = text).
  { vm_compute in Htext. injection Htext as <-. vm_compute. reflexivity. }
  destruct (@full_roundtrip RefJSON.codec Sample.pair raw text Hraw Htext Hwf)
    as (obj' & Hp & Hprot & _ & _ & Hiv & _ & _ & Hrs & _).
  - vm_compute. discriminate.
  - vm_compute. reflexivity.
  - exact Hstrip.
  - vm_compute in Htext. injection Htext as <-. vm_compute. reflexivity.
  - vm_compute in Htext. injection Htext as <-.
    vm_compute in Hraw. injection Hraw as <-. vm_compute. reflexivity.
  - exists text, obj'.
    repeat (split; [assumption || reflexivity|]). assumption.
Defined.

Lemma ParseEncrypted_serializable_witness :
  (exists text, @FullSerialize RefJSON.codec Sample.parsed_spaced = Ok text)
  /\ ((exists text,
          @CompactSerialize RefJSON.codec Sample.parsed_spaced = Ok text)
      \/ @CompactSerialize RefJSON.codec Sample.parsed_spaced
         = Err ErrNotSupported).
Proof.
  apply (@ParseEncrypted_serializable RefJSON.codec Sample.compact_spaced).
  vm_compute. reflexivity.
Defined.

Lemma parse_then_fullRaw_witness :
  exists parsed obj raw,
    @json_unmarshal_raw RefJSON.codec (list_byte_of_string Sample.full_pair)
      = Some parsed
    /\ @parseEncryptedFull RefJSON.codec Sample.full_pair = Ok obj
    /\ @fullRaw RefJSON.codec obj = Ok raw
    /\ bytes (raw_Iv raw) = bytes (raw_Iv parsed)
    /\ Forall2 (fun entry entry' =>
                  rri_Header entry' = rri_Header entry
                  /\ base64URLDecode (rri_EncryptedKey entry')
                     = base64URLDecode (rri_EncryptedKey entry))
         (raw_Recipients parsed) (raw_Recipients raw).
Proof.
  destruct (@json_unmarshal_raw RefJSON.codec
              (list_byte_of_string Sample.full_pair))
    as [parsed|] eqn:Hparsed; [|vm_compute in Hparsed; discriminate Hparsed].
  destruct (@parseEncryptedFull RefJSON.codec Sample.full_pair)
    as [obj| |] eqn:Hobj; [|vm_compute in Hobj; discriminate Hobj..].
  destruct (@parse_then_fullRaw RefJSON.codec Sample.full_pair parsed obj
              Hparsed Hobj)
    as (raw & Hraw & _ & _ & Hiv & _ & _ & _ & _ & Hmany).
  exists parsed, obj, raw. repeat (split; [assumption || reflexivity|]).
  apply Hmany. vm_compute in Hparsed. injection Hparsed as <-.
  cbn. lia.
Defined.

Lemma parseEncryptedFull_errors_witness :
  @parseEncryptedFull RefJSON.codec Sample2.full_bad_header
    = Err MalformedHeader
  /\ @parseEncryptedFull RefJSON.codec Sample2.full_bad_key
     = Err Base64Error.
Proof.
  split.
  - destruct (@json_unmarshal_raw RefJSON.codec
                (list_byte_of_string Sample2.full_bad_header))
      as [parsed|] eqn:Hparsed;
      [|vm_compute in Hparsed; discriminate Hparsed].
    apply (proj1 (@parseEncryptedFull_errors RefJSON.codec _ _ Hparsed));
      vm_compute in Hparsed; injection Hparsed as <-.
    + vm_compute. discriminate.
    + vm_compute. reflexivity.
  - destruct (@json_unmarshal_raw RefJSON.codec
                (list_byte_of_string Sample2.full_bad_key))
      as [parsed|] eqn:Hparsed;
      [|vm_compute in Hparsed; discriminate Hparsed].
    apply (proj1 (proj2 (@parseEncryptedFull_errors RefJSON.codec _ _
                           Hparsed))
             (Some (<["alg" := JString "dir"]> ∅)));
      vm_compute in Hparsed; injection Hparsed as <-.
    + vm_compute. reflexivity.
    + apply Exists_cons_tl, Exists_cons_hd. vm_compute. reflexivity.
Defined.

Lemma parseEncryptedFull_no_protected_witness :
  exists obj,
    @parseEncryptedFull RefJSON.codec Sample2.full_unprotected = Ok obj
    /\ protected obj = None.
Proof.
  destruct (@json_unmarshal_raw RefJSON.codec
              (list_byte_of_string Sample2.full_unprotected))
    as [parsed|] eqn:Hparsed; [|vm_compute in Hparsed; discriminate Hparsed].
  destruct (@parseEncryptedFull RefJSON.codec Sample2.full_unprotected)
    as [obj| |] eqn:Hobj; [|vm_compute in Hobj; discriminate Hobj..].
  exists obj. split; [reflexivity|].
  apply (proj2 (@parseEncryptedFull_no_protected RefJSON.codec
                  Sample2.full_unprotected parsed Hparsed
                  ltac:(vm_compute in Hparsed; injection Hparsed as <-;
                        reflexivity))).
  exact Hobj.
Defined.

Lemma compact_reparse_witness :
  exists text obj',
    @CompactSerialize RefJSON.codec Sample.parsed_spaced = Ok text
    /\ text <> Sample.compact_spaced
    /\ @ParseEncrypted RefJSON.codec text = Ok obj'
    /\ protected obj' = protected Sample.parsed_spaced
    /\ recipients obj' = recipients Sample.parsed_spaced
    /\ iv obj' = iv Sample.parsed_spaced.
Proof.
  destruct (@compact_reparse RefJSON.codec Sample.compact_spaced
              Sample.parsed_spaced)
    as (text & obj' & Hs & Hp & Hprot & _ & Hrs & _ & Hiv & _).
  - vm_compute. reflexivity.
  - vm_compute. reflexivity.
  - exists text, obj'. split; [exact Hs|].
    split; [|now repeat split].
    vm_compute in Hs. injection Hs as <-. discriminate.
Defined.
